(** * PerfTimer: a timing class for simple performance timing and statistics

    Shallow embedding of [Templates/Cpp-Templates/PerfTimer.h].

    - [double] is the primitive binary64 float of the Standard Library, so
      the arithmetic, the comparisons and [sqrt] are the IEEE 754 ones the
      compiled program performs;
    - a [time_point] of [std::chrono::high_resolution_clock] is the signed
      tick count since the clock's epoch, an integer;
    - [std::vector<double>] is a [list float];
    - an output stream is its state: whether it accepts output, and the text
      written so far;
    - a member function is a function of the object and of the part of the
      outside world it touches, returning the new ones. *)

From Stdlib Require Import ZArith List String Ascii Floats Lia Bool.
From Stdlib Require Import DecimalString.
From Stdlib Require DecimalFacts DecimalN.
Import ListNotations.

Set Warnings "-inexact-float".
Local Open Scope string_scope.
Local Open Scope list_scope.

(** ** Formatted output of numbers

    [operator<<] on a stream in its default state prints a [double] as
    printf's [%g] does with precision 6 (six significant digits, fixed
    notation when the decimal exponent lies in [-4, 6), scientific
    otherwise, trailing zeros removed) and a [size_t] in decimal. The value
    of a finite double is the fraction [num / den]; the rounding to six
    digits is to nearest, ties to even, on that exact value. *)
Module Printf.

Definition digits_of (n : Z) : list ascii :=
  list_ascii_of_string (NilEmpty.string_of_uint (N.to_uint (Z.to_N n))).

Fixpoint strip_zeros (l : list ascii) : list ascii :=
  match l with
  | [] => []
  | c :: r =>
      match strip_zeros r with
      | [] => if Ascii.eqb c "0" then [] else [c]
      | r' => c :: r'
      end
  end.

Definition with_point (ip frac : list ascii) : list ascii :=
  match frac with
  | [] => ip
  | _ => ip ++ "."%char :: frac
  end.

(** For a value below one: minus the number of times it has to be
    multiplied by ten to reach one. The smallest double is above 1e-324. *)
Fixpoint below_one (fuel : nat) (num den : Z) (k : Z) : Z :=
  match fuel with
  | O => k
  | S f => if (den <=? num)%Z then k else below_one f (10 * num) den (k - 1)
  end.

Definition decimal_exponent (num den : Z) : Z :=
  if (den <=? num)%Z
  then Z.of_nat (List.length (digits_of (num / den))) - 1
  else below_one 400 num den 0.

Definition round_half_even (num den : Z) : Z :=
  let q := (num / den)%Z in
  let r := (num mod den)%Z in
  if (den <? 2 * r)%Z then q + 1
  else if (2 * r =? den)%Z then (if Z.even q then q else q + 1)
  else q.

(** The six significant digits, as an integer in [100000, 999999], and the
    decimal exponent of the first of them. *)
Definition six_digits (num den : Z) : Z * Z :=
  let x := decimal_exponent num den in
  let k := (5 - x)%Z in
  let d := if (0 <=? k)%Z then round_half_even (num * 10 ^ k) den
           else round_half_even num (den * 10 ^ (- k)) in
  if (d =? 1000000)%Z then (100000, x + 1)%Z else (d, x).

Definition exponent_text (x : Z) : list ascii :=
  (if (x <? 0)%Z then "-"%char else "+"%char) ::
  (if (Z.abs x <? 10)%Z then "0"%char :: digits_of (Z.abs x)
   else digits_of (Z.abs x)).

Definition general (num den : Z) : list ascii :=
  let '(d, x) := six_digits num den in
  let ds := digits_of d in
  if ((-4 <=? x) && (x <? 6))%Z%bool then
    if (0 <=? x)%Z
    then with_point (firstn (Z.to_nat (x + 1)) ds)
                    (strip_zeros (skipn (Z.to_nat (x + 1)) ds))
    else with_point ["0"%char]
                    (strip_zeros (repeat "0"%char (Z.to_nat (- x - 1)) ++ ds))
  else
    with_point (firstn 1 ds) (strip_zeros (skipn 1 ds))
      ++ "e"%char :: exponent_text x.

Definition sign_text (s : bool) : list ascii :=
  if s then ["-"%char] else [].

Definition double_chars (x : float) : list ascii :=
  match Prim2SF x with
  | S754_nan => list_ascii_of_string "nan"
  | S754_infinity s => sign_text s ++ list_ascii_of_string "inf"
  | S754_zero s => sign_text s ++ ["0"%char]
  | S754_finite s m e =>
      sign_text s ++
      (if (0 <=? e)%Z then general (Zpos m * 2 ^ e) 1
       else general (Zpos m) (2 ^ (- e)))
  end.

Definition double (x : float) : string := string_of_list_ascii (double_chars x).

Definition size_t (n : nat) : string := NilEmpty.string_of_uint (Nat.to_uint n).

End Printf.

(** ** Output streams

    [good] is false for a file stream whose file could not be opened; every
    insertion into such a stream is dropped. The overloads of [operator<<]
    are the instances of [Insertable]. *)

Record ostream : Type := mk_ostream { good : bool; text : string }.

Class Insertable (A : Type) : Type := inserted : A -> string.
#[export] Instance Insertable_string : Insertable string := fun s => s.
#[export] Instance Insertable_double : Insertable float := Printf.double.
#[export] Instance Insertable_size_t : Insertable nat := Printf.size_t.

Definition insert {A : Type} `{Insertable A} (os : ostream) (a : A) : ostream :=
  if good os then {| good := true; text := text os ++ inserted a |} else os.

Notation "os << a" := (insert os a) (at level 50, left associativity).

Definition endl : string := String "010"%char EmptyString.

(** ** Outcomes of a call

    A call returns, or leaves the language's defined behaviour (reading a
    vector out of range, dereferencing an end iterator). The header has no
    [throw] and no error return: no function below builds [Throws]; it is
    there for the error kinds of the specification to be comparable with
    what the calls do. *)

Inductive Error : Type := InvalidState | NoSamples | IOError.

Inductive outcome (A : Type) : Type :=
| Returns (a : A)
| Throws (e : Error)
| Undefined.
Arguments Returns {A} a.
Arguments Throws {A} e.
Arguments Undefined {A}.

Definition bind {A B : Type} (o : outcome A) (k : A -> outcome B) : outcome B :=
  match o with
  | Returns a => k a
  | Throws e => Throws e
  | Undefined => Undefined
  end.

Notation "x <- o ;; k" := (bind o (fun x => k))
  (at level 61, o at next level, right associativity).

(** ** The class *)

Definition time_point : Type := Z.

Record PerfTimer : Type := mk_PerfTimer {
  _startTime : time_point;
  _timeDiff : list float;
  _activeTimer : bool;
  _name : string
}.

(** What a member function touches outside the object: the two console
    streams and the files, by path. *)
Record IO : Type := mk_IO {
  cout : ostream;
  cerr : ostream;
  files : string -> option string
}.

(** What the outside decides: which paths open for writing, and the text of
    [std::strerror(errno)]. *)
Record Env : Type := mk_Env {
  openable : string -> bool;
  strerror_errno : string
}.

(** A default-constructed [time_point] is the clock's epoch. *)
Definition epoch : time_point := 0%Z.

(** [PerfTimer::PerfTimer(std::string name)]: [_startTime] and [_timeDiff]
    are default-constructed. *)
Definition new_PerfTimer (name : string) : PerfTimer :=
  {| _startTime := epoch; _timeDiff := []; _activeTimer := false; _name := name |}.

(** [now] is the reading of [high_resolution_clock::now()]. *)
Definition startTimer (now : time_point) (t : PerfTimer) (io : IO) : PerfTimer * IO :=
  if _activeTimer t then
    (t, {| cout := cout io << _name t << "::timer is already active. No action taken";
           cerr := cerr io; files := files io |})
  else
    ({| _startTime := now; _timeDiff := _timeDiff t;
        _activeTimer := _activeTimer t; _name := _name t |}, io).

(** [static_cast<double>] of a tick count: the nearest double. *)
Definition double_of_count (c : Z) : float :=
  SF2Prim (binary_normalize prec emax c 0 false).

Definition stopTimer (now : time_point) (t : PerfTimer) : PerfTimer :=
  let diff := double_of_count (now - _startTime t) in
  {| _startTime := _startTime t; _timeDiff := _timeDiff t ++ [diff];
     _activeTimer := false; _name := _name t |}.

(** [time] is passed by reference and [unit] is an output: the function
    returns both. The fourth label is the narrow literal of U+00B5 followed
    by [s]. *)
Definition _converter (time : float) : float * string :=
  if (time <=? 1.0E3)%float then (time, "ns")
  else if (time <=? 1.0E6)%float then ((time * 1E-3)%float, "µs")
  else if (time <=? 1.0E9)%float then ((time * 1E-6)%float, "ms")
  else if (time <=? 6.0E11)%float then ((time * 1E-9)%float, "s")
  else if (time <=? 1.08E13)%float then ((time * (1E-9 / 60))%float, "mins")
  else ((time * (1E-9 / 3600))%float, "hrs").

Definition accumulate (l : list float) (init : float) : float :=
  fold_left PrimFloat.add l init.

Definition inner_product (a b : list float) (init : float) : float :=
  fold_left (fun acc p => (acc + fst p * snd p)%float) (combine a b) init.

(** Conversion of a [size_t] to [double]. *)
Definition double_of_size (n : nat) : float :=
  of_uint63 (Uint63.of_Z (Z.of_nat n)).

Definition _standardDeviation (t : PerfTimer) : float :=
  let sum := accumulate (_timeDiff t) 0%float in
  let mean := (sum / double_of_size (List.length (_timeDiff t)))%float in
  let diff := map (fun x => (x - mean)%float) (_timeDiff t) in
  let sq_sum := inner_product diff diff 0%float in
  sqrt (sq_sum / double_of_size (List.length (_timeDiff t)))%float.

(** [std::minmax_element]: the first smallest and the last largest element
    under [operator<]; on an empty range both iterators are [end()]. The
    elements are compared one by one with the two extrema found so far. For
    elements that [operator<] orders this is the result that the standard
    fixes; a NaN is not ordered, and with one in the range the result is
    that of the order in which an implementation compares, which may be
    another one. No sample that a client records is a NaN
    ([reachable_no_nan]). *)
Fixpoint minmax_from (lo hi : float) (l : list float) : float * float :=
  match l with
  | [] => (lo, hi)
  | x :: r =>
      minmax_from (if (x <? lo)%float then x else lo)
                  (if (x <? hi)%float then hi else x) r
  end.

Definition minmax_element (l : list float) : option (float * float) :=
  match l with
  | [] => None
  | x :: r => Some (minmax_from x x r)
  end.

Record Stats : Type := mk_Stats {
  trials : nat;
  totalTime : float;
  avgTime : float;
  stdDev : float;
  minTime : float;
  maxTime : float
}.

(** The first block of [reportStats], "Compute statistics in nanoseconds".
    Dereferencing the pair of [minmax_element] on an empty vector
    dereferences [end()]. *)
Definition statistics (t : PerfTimer) : outcome Stats :=
  let totalTime := accumulate (_timeDiff t) 0%float in
  let avgTime := (totalTime / double_of_size (List.length (_timeDiff t)))%float in
  let stdDev := _standardDeviation t in
  match minmax_element (_timeDiff t) with
  | None => Undefined
  | Some (minTime, maxTime) =>
      Returns {| trials := List.length (_timeDiff t);
                 totalTime := totalTime; avgTime := avgTime; stdDev := stdDev;
                 minTime := minTime; maxTime := maxTime |}
  end.

Definition reportStats (t : PerfTimer) (outStream : ostream) : outcome ostream :=
  st <- statistics t ;;
  let '(totalTime, totalTimeUnit) := _converter (totalTime st) in
  let '(avgTime, avgTimeUnit) := _converter (avgTime st) in
  let '(stdDev, stdDevTimeUnit) := _converter (stdDev st) in
  let '(minTime, minTimeUnit) := _converter (minTime st) in
  let '(maxTime, maxTimeUnit) := _converter (maxTime st) in
  Returns (outStream << "Timer name: " << _name t << endl << "  " <<
    "Number of trials: "   << trials st                   << ", " <<
    "Total time: "         << totalTime << totalTimeUnit  << ", " <<
    "Average Time: "       << avgTime   << avgTimeUnit    << ", " <<
    "Standard Deviation: " << stdDev    << stdDevTimeUnit << ", " <<
    "Fastest Run: "        << minTime   << minTimeUnit    << ", " <<
    "Slowest Run: "        << maxTime   << maxTimeUnit    << endl).

(** [v[i]]: undefined out of range. *)
Definition at_index (v : list float) (i : nat) : outcome float :=
  match nth_error v i with
  | Some x => Returns x
  | None => Undefined
  end.

(** The loop [for (i = ...; i < size; i++) saveFile << "," << v[i]], with
    [count] iterations left. *)
Fixpoint write_from (v : list float) (i count : nat) (os : ostream) : outcome ostream :=
  match count with
  | O => Returns os
  | S c => x <- at_index v i ;; write_from v (S i) c (os << "," << x)
  end.

(** "Write the vector to the file": element 0 is read before the size is
    looked at. *)
Definition write_samples (v : list float) (saveFile : ostream) : outcome ostream :=
  x0 <- at_index v 0 ;;
  let saveFile := saveFile << x0 in
  saveFile <- (if (0 <? List.length v)%nat
               then write_from v 1 (List.length v - 1) saveFile
               else Returns saveFile) ;;
  Returns (saveFile << endl).

Definition ofstream_open (env : Env) (filePath : string) : ostream :=
  {| good := openable env filePath; text := "" |}.

Definition is_open (f : ostream) : bool := good f.

Definition ofstream_close (filePath : string) (f : ostream)
    (fs : string -> option string) : string -> option string :=
  if is_open f
  then fun p => if String.eqb p filePath then Some (text f) else fs p
  else fs.

Definition saveTimingData (env : Env) (filePath : string) (t : PerfTimer) (io : IO)
    : outcome IO :=
  let saveFile := ofstream_open env filePath in
  let io :=
    if is_open saveFile
    then {| cout := cout io << "yes I'm open" << endl;
            cerr := cerr io; files := files io |}
    else {| cout := cout io;
            cerr := cerr io << "PerfTimer output file failed to open. Error: "
                            << strerror_errno env << endl;
            files := files io |} in
  saveFile <- reportStats t saveFile ;;
  saveFile <- write_samples (_timeDiff t) saveFile ;;
  Returns {| cout := cout io; cerr := cerr io;
             files := ofstream_close filePath saveFile (files io) |}.

(** ** Call sequences

    A client constructs a timer and calls its four public member functions
    in any order; [reportStats] is called with its default argument,
    [std::cout]. *)

Inductive Call : Type :=
| CallStart (now : time_point)
| CallStop (now : time_point)
| CallReport
| CallSave (filePath : string).

Definition call (env : Env) (c : Call) (s : PerfTimer * IO) : outcome (PerfTimer * IO) :=
  let '(t, io) := s in
  match c with
  | CallStart now => Returns (startTimer now t io)
  | CallStop now => Returns (stopTimer now t, io)
  | CallReport =>
      out <- reportStats t (cout io) ;;
      Returns (t, {| cout := out; cerr := cerr io; files := files io |})
  | CallSave filePath =>
      io <- saveTimingData env filePath t io ;;
      Returns (t, io)
  end.

Fixpoint run (env : Env) (cs : list Call) (s : PerfTimer * IO) : outcome (PerfTimer * IO) :=
  match cs with
  | [] => Returns s
  | c :: cs => s <- call env c s ;; run env cs s
  end.

Definition reachable (t : PerfTimer) : Prop :=
  exists env name cs io io',
    run env cs (new_PerfTimer name, io) = Returns (t, io').

(** ** Reading a report back *)

Fixpoint split_on (sep : ascii) (s : string) : list string :=
  match s with
  | EmptyString => [EmptyString]
  | String c r =>
      if Ascii.eqb c sep then EmptyString :: split_on sep r
      else match split_on sep r with
           | f :: fs => String c f :: fs
           | [] => [String c EmptyString]
           end
  end.

Fixpoint lines (s : string) : list string :=
  match s with
  | EmptyString => []
  | String c r =>
      if Ascii.eqb c "010"%char then EmptyString :: lines r
      else match lines r with
           | l :: ls => String c l :: ls
           | [] => [String c EmptyString]
           end
  end.

Fixpoint all_chars (p : ascii -> bool) (s : string) : bool :=
  match s with
  | EmptyString => true
  | String c r => p c && all_chars p r
  end.

Definition differs (sep : ascii) (c : ascii) : bool := negb (Ascii.eqb c sep).

Definition no_newline (s : string) : Prop := all_chars (differs "010") s = true.

(** Neither a comma nor a line feed. *)
Definition plain (c : ascii) : bool := differs "," c && differs "010" c.

(** Reading a decimal text as a double, as [strtod] and [operator>>] do:
    the text denotes a fraction, and the result is the double nearest to
    it, ties to even ([nearest_double] keeps more than 64 bits of the
    quotient and a sticky bit before the final rounding). *)
Module Strtod.

Definition digit_value (c : ascii) : option Z :=
  let n := Z.of_nat (nat_of_ascii c) in
  if ((48 <=? n) && (n <=? 57))%Z%bool then Some (n - 48)%Z else None.

Fixpoint digit_run (acc count : Z) (l : list ascii) : Z * Z * list ascii :=
  match l with
  | [] => (acc, count, [])
  | c :: r =>
      match digit_value c with
      | Some d => digit_run (10 * acc + d) (count + 1) r
      | None => (acc, count, l)
      end
  end.

Definition take_sign (l : list ascii) : bool * list ascii :=
  match l with
  | c :: r =>
      if Ascii.eqb c "-" then (true, r)
      else if Ascii.eqb c "+" then (false, r)
      else (false, l)
  | [] => (false, [])
  end.

Definition nearest_double (neg : bool) (num den : Z) : float :=
  let s := Z.max 0 (66 + Z.log2 den - Z.log2 num) in
  let q := (num * 2 ^ s / den)%Z in
  let sticky := if (num * 2 ^ s mod den =? 0)%Z then 0%Z else 1%Z in
  let m := (2 * q + sticky)%Z in
  let f := SF2Prim (binary_normalize prec emax m (- s - 1) false) in
  if neg then (- f)%float else f.

Definition exponent_part (l : list ascii) : option Z :=
  match l with
  | [] => Some 0%Z
  | c :: r =>
      if Ascii.eqb c "e" then
        let '(neg, r) := take_sign r in
        match digit_run 0 0 r with
        | (e, k, []) => if (0 <? k)%Z then Some (if neg then - e else e)%Z else None
        | _ => None
        end
      else None
  end.

Definition parse (s : string) : option float :=
  let '(neg, l) := take_sign (list_ascii_of_string s) in
  let '(ip, n_int, l) := digit_run 0 0 l in
  let '(m, n_frac, l) :=
    match l with
    | c :: r => if Ascii.eqb c "." then digit_run ip 0 r else (ip, 0%Z, l)
    | [] => (ip, 0%Z, [])
    end in
  if (n_int + n_frac =? 0)%Z then None
  else match exponent_part l with
       | Some e =>
           let e := (e - n_frac)%Z in
           Some (if (0 <=? e)%Z then nearest_double neg (m * 10 ^ e) 1
                 else nearest_double neg m (10 ^ (- e)))
       | None => None
       end.

End Strtod.

(** ** The decimal that a printed sample holds

    What a reading of a printed double finds, in numbers: the digits as
    an integer, the trailing zeros that the format does not print, and the
    double that the conversion gives for a decimal. *)

Module Numeral.

Definition digit (c : ascii) : Z :=
  match Strtod.digit_value c with Some d => d | None => 0%Z end.

Definition is_digit (c : ascii) : bool :=
  match Strtod.digit_value c with Some _ => true | None => false end.

(** The number that a run of digits writes, after the digits of [acc]. *)
Definition value_from (acc : Z) (l : list ascii) : Z :=
  fold_left (fun a c => (10 * a + digit c)%Z) l acc.

Definition value (l : list ascii) : Z := value_from 0 l.

Definition uint_chars (u : Decimal.uint) : list ascii :=
  list_ascii_of_string (NilEmpty.string_of_uint u).

(** A text at which a run of digits ends. *)
Definition stops (l : list ascii) : Prop :=
  match l with
  | [] => True
  | c :: _ => is_digit c = false
  end.

Definition point_text (fr : list ascii) : list ascii :=
  match fr with [] => [] | _ => "."%char :: fr end.

Definition exp_text (ex : option Z) : list ascii :=
  match ex with None => [] | Some x => "e"%char :: Printf.exponent_text x end.

(** [m * 10 ^ e] without at most [cap] trailing zeros of [m]: the same
    decimal, written with fewer digits. *)
Fixpoint reduce (cap : nat) (m e : Z) : Z * Z :=
  match cap with
  | O => (m, e)
  | S c => if (m mod 10 =? 0)%Z then reduce c (m / 10)%Z (e + 1)%Z else (m, e)
  end.

(** The double read for the decimal [m * 10 ^ e], as [Strtod.parse]
    converts the digits [m] with the decimal exponent [e]. *)
Definition reads_as (neg : bool) (m e : Z) : float :=
  if (0 <=? e)%Z then Strtod.nearest_double neg (m * 10 ^ e) 1
  else Strtod.nearest_double neg m (10 ^ (- e)).

(** The sign of a finite double other than zero, and its magnitude as a
    fraction, as [Printf.double_chars] passes them to [Printf.general]. *)
Definition fraction (x : float) : option (bool * Z * Z) :=
  match Prim2SF x with
  | S754_finite s m e =>
      Some (if (0 <=? e)%Z then (s, Zpos m * 2 ^ e, 1) else (s, Zpos m, 2 ^ (- e)))%Z
  | _ => None
  end.

(** [d * 10 ^ (x - 5)] is [num / den] rounded to six significant digits:
    [d] has six digits and is within one half of [num / den * 10 ^ (5 - x)]. *)
Definition six_digit_rounding (num den d x : Z) : Prop :=
  (100000 <= d < 1000000 /\
   2 * Z.abs (num * 10 ^ Z.max 0 (5 - x) - d * den * 10 ^ Z.max 0 (x - 5))
   <= den * 10 ^ Z.max 0 (x - 5))%Z.

(** The double read back from the six digits printed for [x]. The trailing
    zeros of the fraction part are not printed: they are removed from the
    digits before the decimal is converted. Zero is printed as [0], and
    read back as itself. *)
Definition six_digit_double (x : float) : float :=
  match fraction x with
  | Some (s, num, den) =>
      let '(d, x10) := Printf.six_digits num den in
      let shown :=
        if ((-4 <=? x10) && (x10 <? 6))%Z%bool then Z.to_nat (5 - x10) else 5%nat in
      let '(m, e) := reduce shown d (x10 - 5) in
      reads_as s m e
  | None => x
  end.

Definition finite (x : float) : bool :=
  match Prim2SF x with
  | S754_zero _ | S754_finite _ _ _ => true
  | _ => false
  end.

(** The mantissa and the exponent of the cast of a count below [2 ^ 53]:
    the count, shifted to 53 bits. *)
Definition mantissa (p : positive) : positive :=
  match (53 - Zpos (digits2_pos p))%Z with
  | Zpos d => Pos.iter xO p d
  | _ => p
  end.

Definition exponent (p : positive) : Z := (Zpos (digits2_pos p) - 53)%Z.

(** The tick count [n] rounded to six significant digits. *)
Definition six_digit_count (n : Z) : Z :=
  let '(d, x10) := Printf.six_digits n 1 in
  if (5 <=? x10)%Z then (d * 10 ^ (x10 - 5))%Z else (d / 10 ^ (5 - x10))%Z.

(** A count that six significant digits write. *)
Definition six_figures (n : Z) : Prop :=
  exists d k : Z, (0 <= k /\ 0 < d < 1000000 /\ n = d * 10 ^ k)%Z.

(** The six digits of a count and their decimal exponent, as numbers: a
    count below a million has all its digits, a longer one is rounded at
    its sixth digit, and a rounding that reaches a million is carried. *)
Inductive count_digits (n : Z) : Z * Z -> Prop :=
| short_count (x : Z) :
    (0 <= x <= 5)%Z -> (10 ^ x <= n < 10 * 10 ^ x)%Z ->
    count_digits n ((n * 10 ^ (5 - x))%Z, x)
| long_count (x d : Z) :
    (5 < x)%Z -> (100000 * 10 ^ (x - 5) <= n < 1000000 * 10 ^ (x - 5))%Z ->
    (100000 <= d < 1000000)%Z ->
    (2 * Z.abs (n - d * 10 ^ (x - 5)) <= 10 ^ (x - 5))%Z ->
    count_digits n (d, x)
| carried_count (x : Z) :
    (5 < x)%Z -> (100000 * 10 ^ (x - 5) <= n < 1000000 * 10 ^ (x - 5))%Z ->
    (2 * Z.abs (n - 1000000 * 10 ^ (x - 5)) <= 10 ^ (x - 5))%Z ->
    count_digits n (100000%Z, (x + 1)%Z).

End Numeral.

(** ** The statistics as the specification words them

    Sums run left to right from zero, as [std::accumulate] does: float
    addition is not associative, so the order is part of the value. *)

Definition sum_of (l : list float) : float := fold_left PrimFloat.add l 0%float.

Definition mean_of (l : list float) : float :=
  (sum_of l / double_of_size (List.length l))%float.

(** Population standard deviation: the squared deviations from the mean are
    summed and divided by the count. *)
Definition population_sd (l : list float) : float :=
  let m := mean_of l in
  sqrt (sum_of (map (fun x => ((x - m) * (x - m))%float) l)
        / double_of_size (List.length l))%float.

Definition is_minimum (m : float) (l : list float) : Prop :=
  In m l /\ forall x, In x l -> (x <? m)%float = false.

Definition is_maximum (m : float) (l : list float) : Prop :=
  In m l /\ forall x, In x l -> (m <? x)%float = false.

(** ** The tiers of the unit selection as the specification tables them

    A tier is its range of raw values, its factor and its label; the first
    tier leaves the value as it is. *)

Inductive Tier : Type := Finest | Micro | Milli | Base | Minutes | Hours.

Definition in_tier (k : Tier) (time : float) : Prop :=
  match k with
  | Finest => (time <=? 1.0E3)%float = true
  | Micro => (1.0E3 <? time)%float = true /\ (time <=? 1.0E6)%float = true
  | Milli => (1.0E6 <? time)%float = true /\ (time <=? 1.0E9)%float = true
  | Base => (1.0E9 <? time)%float = true /\ (time <=? 6.0E11)%float = true
  | Minutes => (6.0E11 <? time)%float = true /\ (time <=? 1.08E13)%float = true
  | Hours => (time <=? 1.08E13)%float = false
  end.

Definition scaled (k : Tier) (time : float) : float :=
  match k with
  | Finest => time
  | Micro => (time * 1E-3)%float
  | Milli => (time * 1E-6)%float
  | Base => (time * 1E-9)%float
  | Minutes => (time * (1E-9 / 60))%float
  | Hours => (time * (1E-9 / 3600))%float
  end.

Definition label (k : Tier) : string :=
  match k with
  | Finest => "ns"
  | Micro => "µs"
  | Milli => "ms"
  | Base => "s"
  | Minutes => "mins"
  | Hours => "hrs"
  end.

Definition no_nan (v : list float) : Prop :=
  Forall (fun x => is_nan x = false) v.

(** The two lines of a report, without their line ends. *)
Definition name_line (t : PerfTimer) : string := "Timer name: " ++ _name t.

Definition entry (label : string) (time : float) : string :=
  label ++ Printf.double (fst (_converter time)) ++ snd (_converter time).

Definition stats_line (st : Stats) : string :=
  "  Number of trials: " ++ Printf.size_t (trials st) ++ ", " ++
  entry "Total time: " (totalTime st) ++ ", " ++
  entry "Average Time: " (avgTime st) ++ ", " ++
  entry "Standard Deviation: " (stdDev st) ++ ", " ++
  entry "Fastest Run: " (minTime st) ++ ", " ++
  entry "Slowest Run: " (maxTime st).

(** The line of raw samples, without its line end. *)
Definition samples_line (v : list float) : string :=
  String.concat "," (map Printf.double v).

(** What the loop of [write_samples] appends for the elements [l]. *)
Fixpoint comma_items (l : list float) : string :=
  match l with
  | [] => ""
  | x :: r => "," ++ Printf.double x ++ comma_items r
  end.

(** ** Concrete situations used by the examples *)

Definition quiet : IO :=
  {| cout := mk_ostream true ""; cerr := mk_ostream true "";
     files := fun _ => None |}.

Definition writable_fs : Env :=
  {| openable := fun _ => true; strerror_errno := "" |}.

Definition readonly_fs : Env :=
  {| openable := fun _ => false; strerror_errno := "Permission denied" |}.

Definition three_runs : PerfTimer :=
  {| _startTime := 0%Z; _timeDiff := [100; 200; 300]%float;
     _activeTimer := false; _name := "t" |}.

Definition sf_is_nan (f : spec_float) : bool :=
  match f with S754_nan => true | _ => false end.

(** ** Call sequences, read as a client does *)

(** The tick counts that the stops of a call sequence record, [mark] being
    the start mark before the sequence: each stop measures from the latest
    start before it. *)
Fixpoint recorded (mark : time_point) (cs : list Call) : list Z :=
  match cs with
  | [] => []
  | CallStart now :: cs => recorded now cs
  | CallStop now :: cs => (now - mark)%Z :: recorded mark cs
  | _ :: cs => recorded mark cs
  end.

(** Start/stop cycles, each given by its two clock readings. *)
Definition cycles (l : list (time_point * time_point)) : list Call :=
  flat_map (fun p => [CallStart (fst p); CallStop (snd p)]) l.

(** No report and no export is asked for while the timer holds no sample,
    [n] being the number of samples held before the sequence. *)
Fixpoint reports_after_a_stop (n : nat) (cs : list Call) : bool :=
  match cs with
  | [] => true
  | CallStart _ :: cs => reports_after_a_stop n cs
  | CallStop _ :: cs => reports_after_a_stop (S n) cs
  | CallReport :: cs => (0 <? n)%nat && reports_after_a_stop n cs
  | CallSave _ :: cs => (0 <? n)%nat && reports_after_a_stop n cs
  end.

(** * InputParser: command line flags

    Shallow embedding of [Templates/Cpp-Templates/cppArgParser.h]. The
    vector of tokens is a list of strings, an iterator into it is an index
    ([end()] is the length), and a call either returns a value or throws a
    standard exception with its message. *)

Inductive exception : Type :=
| invalid_argument (what : string)
| runtime_error (what : string).

Inductive result (A : Type) : Type :=
| Value (a : A)
| Raised (e : exception).
Arguments Value {A} a.
Arguments Raised {A} e.

Module CppArgParser.

Record InputParser : Type := mk_InputParser { tokens : list string }.

(** The loop of the constructor, about to read [argv[i]] with [count]
    iterations left; reading past the end of [argv] has no value. *)
Fixpoint push_from (argv : list string) (i count : nat) (tokens : list string)
    : option (list string) :=
  match count with
  | O => Some tokens
  | S c =>
      match nth_error argv i with
      | Some a => push_from argv (S i) c (tokens ++ [a])
      | None => None
      end
  end.

(** [InputParser(int &argc, char **argv)]: [for (int i=1; i < argc; ++i)]. *)
Definition new_InputParser (argc : Z) (argv : list string) : option InputParser :=
  match push_from argv 1 (Z.to_nat (argc - 1)) [] with
  | Some tokens => Some {| tokens := tokens |}
  | None => None
  end.

(** [std::find]: the index of the first element equal to [x], the length
    when there is none. *)
Fixpoint find (v : list string) (x : string) : nat :=
  match v with
  | [] => O
  | y :: r => if String.eqb y x then O else S (find r x)
  end.

Definition cmdOptionExists (p : InputParser) (option : string) : bool :=
  negb (find (tokens p) option =? List.length (tokens p))%nat.

Definition getCmdOption (p : InputParser) (option : string) : result string :=
  if negb (cmdOptionExists p option) then
    Raised (invalid_argument ("Error: argument '" ++ option ++ "' not found. "))
  else
    let itr := find (tokens p) option in
    if negb (itr =? List.length (tokens p))%nat
       && negb (S itr =? List.length (tokens p))%nat
    then Value (nth (S itr) (tokens p) "")
    else Raised (invalid_argument ("Error: empty argument '" ++ option ++ "'")).

End CppArgParser.

(** * PersistentCommunicator: persistent MPI communication

    Shallow embedding of the constructor of
    [Templates/Cpp-Templates/PersistentCommunicator.h]. The MPI library is
    outside the repository: its types and the two initialisation calls are
    parameters, a call being a function of the state of the library that
    returns its status code, the request and the new state. *)
Module MPIWrapper.

(** [std::to_string(int)]. *)
Definition to_string (n : Z) : string := NilEmpty.string_of_int (Z.to_int n).

Definition quote : string := String "034"%char EmptyString.

Section WithMPI.
Variables pointer MPI_Datatype MPI_Comm MPI_Request MPI_Status MPI_World : Type.

Definition init_call : Type :=
  pointer -> Z -> MPI_Datatype -> Z -> Z -> MPI_Comm -> MPI_World ->
  Z * MPI_Request * MPI_World.

Variables MPI_Send_init MPI_Recv_init : init_call.

(** [status] is not set by the constructor. *)
Record PersistentCommunicator : Type := mk_PersistentCommunicator {
  status : option MPI_Status;
  commKind : string;
  bufferPointer : pointer;
  numElements : Z;
  mpi_type : MPI_Datatype;
  otherRank : Z;
  tag : Z;
  mpiCommunicator : MPI_Comm;
  _request : MPI_Request
}.

Definition new_PersistentCommunicator (commKind : string) (bufferPointer : pointer)
    (numElements : Z) (mpi_type : MPI_Datatype) (otherRank tag : Z)
    (mpiCommunicator : MPI_Comm) (w : MPI_World)
    : result PersistentCommunicator * MPI_World :=
  let init (f : init_call) :=
    let '(status, request, w) :=
      f bufferPointer numElements mpi_type otherRank tag mpiCommunicator w in
    if negb (status =? 0)%Z then
      (Raised (runtime_error
                 ("MPI persistent communication failed to initialize. Error Code: "
                    ++ to_string status)), w)
    else
      (Value {| status := None; commKind := commKind;
                bufferPointer := bufferPointer; numElements := numElements;
                mpi_type := mpi_type; otherRank := otherRank; tag := tag;
                mpiCommunicator := mpiCommunicator; _request := request |}, w) in
  if String.eqb commKind "send" then init MPI_Send_init
  else if String.eqb commKind "receive" then init MPI_Recv_init
  else
    (Raised (invalid_argument
               ("Invalid commKind passed to PersistentCommunicator. Expected "
                  ++ quote ++ "send" ++ quote ++ " or " ++ quote ++ "receive"
                  ++ quote ++ ", got " ++ commKind)), w).

End WithMPI.

End MPIWrapper.

(** ** Order facts on binary64

    The comparisons of [PrimFloat] are specified on [spec_float] by
    [SFcompare]; the facts below are what the extrema and the tier
    selection need. *)
Module FloatOrder.

Ltac cases_pos p q :=
  let H := fresh "Hcmp" in
  pose proof (Pos.compare_spec p q) as H;
  unfold Pos.compare in H; destruct H.

Ltac sf_cases x y z :=
  destruct x as [?sx|?sx| |?sx ?mx ?ex],
           y as [?sy|?sy| |?sy ?my ?ey],
           z as [?sz|?sz| |?sz ?mz ?ez];
  simpl; try discriminate;
  repeat match goal with s : bool |- _ => destruct s end;
  simpl; try discriminate; try reflexivity.

Ltac lex_cases :=
  match goal with
  | |- context [SFcompare] => fail 1
  | mx : positive, my : positive, mz : positive, ex : Z, ey : Z, ez : Z |- _ =>
      destruct (Z.compare_spec ex ey), (Z.compare_spec ey ez),
               (Z.compare_spec ex ez);
      subst; try lia; try discriminate; try reflexivity;
      cases_pos mx my; cases_pos my mz; cases_pos mx mz;
      subst; simpl; try lia; try discriminate; try reflexivity
  end.

Lemma SFcompare_antisym (x y : spec_float) :
  SFcompare y x = option_map CompOpp (SFcompare x y).
Proof.
  destruct x as [sx|sx| |sx mx ex], y as [sy|sy| |sy my ey]; simpl;
    try reflexivity;
    try (destruct sx; reflexivity); try (destruct sy; reflexivity);
    try (destruct sx, sy; reflexivity).
  destruct sx, sy; simpl; try reflexivity;
    rewrite (Z.compare_antisym ex ey);
    destruct (ex ?= ey)%Z; simpl; try reflexivity;
    change (Pos.compare_cont Eq my mx) with (Pos.compare my mx);
    change (Pos.compare_cont Eq mx my) with (Pos.compare mx my);
    rewrite (Pos.compare_antisym mx my);
    try rewrite CompOpp_involutive; reflexivity.
Qed.

Lemma SFcompare_refl (x : spec_float) :
  SFcompare x x = if sf_is_nan x then None else Some Eq.
Proof.
  destruct x as [s|s| |s m e]; simpl; try reflexivity.
  - destruct s; reflexivity.
  - rewrite Z.compare_refl.
    change (Pos.compare_cont Eq m m) with (Pos.compare m m).
    rewrite Pos.compare_refl. destruct s; reflexivity.
Qed.

Lemma SFcompare_total (x y : spec_float) :
  sf_is_nan x = false -> sf_is_nan y = false -> SFcompare x y <> None.
Proof. destruct x, y; simpl; intros; congruence. Qed.

Lemma SFcompare_Lt_trans (x y z : spec_float) :
  SFcompare x y = Some Lt -> SFcompare y z = Some Lt ->
  SFcompare x z = Some Lt.
Proof. sf_cases x y z; lex_cases. Qed.

Lemma SFcompare_Eq_Lt (x y z : spec_float) :
  SFcompare x y = Some Eq -> SFcompare y z = Some Lt ->
  SFcompare x z = Some Lt.
Proof. sf_cases x y z; lex_cases. Qed.

Lemma SFcompare_Lt_Eq (x y z : spec_float) :
  SFcompare x y = Some Lt -> SFcompare y z = Some Eq ->
  SFcompare x z = Some Lt.
Proof. sf_cases x y z; lex_cases. Qed.

Lemma SFcompare_Eq_trans (x y z : spec_float) :
  SFcompare x y = Some Eq -> SFcompare y z = Some Eq ->
  SFcompare x z = Some Eq.
Proof. sf_cases x y z; lex_cases. Qed.

Local Open Scope float_scope.

Lemma is_nan_spec (x : float) : is_nan x = sf_is_nan (Prim2SF x).
Proof.
  unfold is_nan. rewrite FloatAxioms.eqb_spec. unfold SFeqb.
  rewrite SFcompare_refl. destruct (sf_is_nan (Prim2SF x)); reflexivity.
Qed.

Lemma ltb_irrefl (x : float) : (x <? x) = false.
Proof.
  rewrite FloatAxioms.ltb_spec. unfold SFltb. rewrite SFcompare_refl.
  destruct (sf_is_nan (Prim2SF x)); reflexivity.
Qed.

Lemma ltb_trans (x y z : float) :
  (x <? y) = true -> (y <? z) = true -> (x <? z) = true.
Proof.
  rewrite !FloatAxioms.ltb_spec. unfold SFltb. intros Hxy Hyz.
  destruct (SFcompare (Prim2SF x) (Prim2SF y)) as [[]|] eqn:E1; try discriminate.
  destruct (SFcompare (Prim2SF y) (Prim2SF z)) as [[]|] eqn:E2; try discriminate.
  now rewrite (SFcompare_Lt_trans _ _ _ E1 E2).
Qed.

Lemma leb_trans (x y z : float) :
  (x <=? y) = true -> (y <=? z) = true -> (x <=? z) = true.
Proof.
  rewrite !FloatAxioms.leb_spec. unfold SFleb. intros Hxy Hyz.
  destruct (SFcompare (Prim2SF x) (Prim2SF y)) as [[]|] eqn:E1; try discriminate;
  destruct (SFcompare (Prim2SF y) (Prim2SF z)) as [[]|] eqn:E2; try discriminate.
  - now rewrite (SFcompare_Eq_trans _ _ _ E1 E2).
  - now rewrite (SFcompare_Eq_Lt _ _ _ E1 E2).
  - now rewrite (SFcompare_Lt_Eq _ _ _ E1 E2).
  - now rewrite (SFcompare_Lt_trans _ _ _ E1 E2).
Qed.

(** A strict comparison excludes the converse large one. *)
Lemma ltb_leb_false (x y : float) : (x <? y) = true -> (y <=? x) = false.
Proof.
  rewrite FloatAxioms.ltb_spec, FloatAxioms.leb_spec. unfold SFltb, SFleb.
  rewrite (SFcompare_antisym (Prim2SF x) (Prim2SF y)).
  destruct (SFcompare (Prim2SF x) (Prim2SF y)) as [[]|]; simpl; congruence.
Qed.

Lemma leb_ltb_false (x y : float) : (x <=? y) = true -> (y <? x) = false.
Proof.
  rewrite FloatAxioms.ltb_spec, FloatAxioms.leb_spec. unfold SFltb, SFleb.
  rewrite (SFcompare_antisym (Prim2SF x) (Prim2SF y)).
  destruct (SFcompare (Prim2SF x) (Prim2SF y)) as [[]|]; simpl; congruence.
Qed.

(** Away from NaN the order is total. *)
Lemma not_ltb_leb (x y : float) :
  is_nan x = false -> is_nan y = false -> (x <? y) = false -> (y <=? x) = true.
Proof.
  rewrite !is_nan_spec, FloatAxioms.ltb_spec, FloatAxioms.leb_spec. unfold SFltb, SFleb.
  intros Hx Hy. pose proof (SFcompare_total _ _ Hx Hy) as Ht.
  rewrite (SFcompare_antisym (Prim2SF x) (Prim2SF y)).
  destruct (SFcompare (Prim2SF x) (Prim2SF y)) as [[]|]; simpl; congruence.
Qed.

Lemma not_leb_ltb (x y : float) :
  is_nan x = false -> is_nan y = false -> (x <=? y) = false -> (y <? x) = true.
Proof.
  rewrite !is_nan_spec, FloatAxioms.ltb_spec, FloatAxioms.leb_spec.
  unfold SFltb, SFleb.
  intros Hx Hy. pose proof (SFcompare_total _ _ Hx Hy) as Ht.
  rewrite (SFcompare_antisym (Prim2SF x) (Prim2SF y)).
  destruct (SFcompare (Prim2SF x) (Prim2SF y)) as [[]|]; simpl; congruence.
Qed.

(** NaN compares with nothing. *)
Lemma leb_nan (x y : float) : is_nan x = true -> (x <=? y) = false.
Proof.
  rewrite is_nan_spec, FloatAxioms.leb_spec. unfold SFleb.
  destruct (Prim2SF x); try discriminate. reflexivity.
Qed.

Lemma leb_false_ge (x y z : float) :
  (x <=? z) = false -> (y <=? z) = true -> (x <=? y) = false.
Proof.
  intros Hxz Hyz. destruct (x <=? y) eqn:E; [|reflexivity].
  rewrite (leb_trans _ _ _ E Hyz) in Hxz. discriminate.
Qed.

End FloatOrder.

(** ** Casting tick counts

    Rounding an integer to binary64 gives a number, never a NaN. *)
Module Casts.

Lemma iter_pos_invariant {A : Type} (P : A -> Prop) (f : A -> A) :
  (forall x, P x -> P (f x)) ->
  forall n x, P x -> P (iter_pos f n x).
Proof.
  intros Hf. induction n as [n IH|n IH|]; intros x Hx; simpl; auto.
Qed.

Lemma shr_1_nonneg (mrs : shr_record) :
  (0 <= shr_m mrs)%Z -> (0 <= shr_m (shr_1 mrs))%Z.
Proof.
  destruct mrs as [m r s]. simpl.
  destruct m as [|[p|p|]|p]; simpl; lia.
Qed.

Lemma shr_nonneg (mrs : shr_record) (e n : Z) :
  (0 <= shr_m mrs)%Z -> (0 <= shr_m (fst (shr mrs e n)))%Z.
Proof.
  intros Hm. unfold shr. destruct n as [|p|p]; simpl; auto.
  now apply (iter_pos_invariant (fun x => (0 <= shr_m x)%Z) shr_1 shr_1_nonneg).
Qed.

Lemma shr_fexp_nonneg (p emx m e : Z) (l : location) :
  (0 <= m)%Z -> (0 <= shr_m (fst (shr_fexp p emx m e l)))%Z.
Proof.
  intros Hm. unfold shr_fexp. apply shr_nonneg.
  destruct l as [|[]]; exact Hm.
Qed.

Lemma round_nearest_even_nonneg (mx : Z) (lx : location) :
  (0 <= mx)%Z -> (0 <= round_nearest_even mx lx)%Z.
Proof.
  intros Hm. destruct lx as [|[]]; simpl; try lia.
  destruct (Z.even mx); lia.
Qed.

Lemma binary_round_aux_not_nan (p emx : Z) (sx : bool) (mx ex : Z) (lx : location) :
  (0 <= mx)%Z -> sf_is_nan (binary_round_aux p emx sx mx ex lx) = false.
Proof.
  intros Hm. unfold binary_round_aux.
  pose proof (shr_fexp_nonneg p emx mx ex lx Hm) as H1.
  destruct (shr_fexp p emx mx ex lx) as [mrs' e']. simpl in H1.
  pose proof (shr_fexp_nonneg p emx _ e' loc_Exact
                (round_nearest_even_nonneg _ (loc_of_shr_record mrs') H1)) as H2.
  destruct (shr_fexp p emx (round_nearest_even (shr_m mrs') (loc_of_shr_record mrs'))
              e' loc_Exact) as [mrs'' e''].
  simpl in H2. destruct (shr_m mrs'') as [|m|m]; try reflexivity; [|lia].
  destruct (e'' <=? emx - p)%Z; reflexivity.
Qed.

Lemma binary_round_not_nan (p emx : Z) (sx : bool) (mx : positive) (ex : Z) :
  sf_is_nan (binary_round p emx sx mx ex) = false.
Proof.
  unfold binary_round. destruct (shl_align mx ex _) as [mz ez].
  apply binary_round_aux_not_nan. lia.
Qed.

Lemma binary_normalize_not_nan (p emx m e : Z) (szero : bool) :
  sf_is_nan (binary_normalize p emx m e szero) = false.
Proof.
  destruct m; simpl; [reflexivity| |]; apply binary_round_not_nan.
Qed.

Lemma SF2Prim_not_nan (f : spec_float) :
  sf_is_nan f = false -> is_nan (SF2Prim f) = false.
Proof.
  destruct f as [[]|[]| |s m e]; try reflexivity; try discriminate. intros _.
  assert (H : is_nan (Z.ldexp (of_uint63 (Uint63.of_Z (Zpos m))) e) = false).
  { rewrite FloatOrder.is_nan_spec, Z_ldexp_spec, of_uint63_spec. unfold SFldexp.
    pose proof (binary_normalize_not_nan prec emax
                  (Uint63.to_Z (Uint63.of_Z (Z.pos m))) 0 false) as Hn.
    destruct (binary_normalize prec emax _ 0 false); try discriminate;
      try reflexivity.
    apply binary_round_not_nan. }
  unfold SF2Prim. destruct s; [|exact H].
  rewrite FloatOrder.is_nan_spec, opp_spec. rewrite FloatOrder.is_nan_spec in H.
  destruct (Prim2SF _); try discriminate; reflexivity.
Qed.

Lemma double_of_count_not_nan (c : Z) : is_nan (double_of_count c) = false.
Proof. apply SF2Prim_not_nan, binary_normalize_not_nan. Qed.

End Casts.

(** ** Texts: character classes, fields and lines *)
Module Text.
Local Open Scope string_scope.

Lemma append_assoc (a b c : string) : (a ++ b) ++ c = a ++ (b ++ c).
Proof. induction a as [|x a IH]; simpl; [reflexivity | now rewrite IH]. Qed.

Lemma append_nil_r (a : string) : a ++ "" = a.
Proof. induction a as [|x a IH]; simpl; [reflexivity | now rewrite IH]. Qed.

Lemma all_chars_app (p : ascii -> bool) (a b : string) :
  all_chars p (a ++ b) = all_chars p a && all_chars p b.
Proof.
  induction a as [|x a IH]; simpl; [reflexivity|].
  now rewrite IH, andb_assoc.
Qed.

Lemma all_chars_of_list (p : ascii -> bool) (l : list ascii) :
  all_chars p (string_of_list_ascii l) = forallb p l.
Proof. induction l as [|x l IH]; simpl; [reflexivity | now rewrite IH]. Qed.

Lemma all_chars_to_list (p : ascii -> bool) (s : string) :
  forallb p (list_ascii_of_string s) = all_chars p s.
Proof. induction s as [|x s IH]; simpl; [reflexivity | now rewrite IH]. Qed.

Lemma all_chars_weaken (p q : ascii -> bool) (s : string) :
  (forall c, p c = true -> q c = true) ->
  all_chars p s = true -> all_chars q s = true.
Proof.
  intros Hpq. induction s as [|x s IH]; simpl; [reflexivity|].
  rewrite !andb_true_iff. intros [Hx Hs]. split; auto.
Qed.

Lemma plain_no_comma (c : ascii) : plain c = true -> differs "," c = true.
Proof. unfold plain. now rewrite andb_true_iff. Qed.

Lemma plain_no_newline (c : ascii) : plain c = true -> differs "010" c = true.
Proof. unfold plain. now rewrite andb_true_iff. Qed.

(** A field that does not contain the separator is found whole. *)
Lemma split_on_field (sep : ascii) (a r : string) :
  all_chars (differs sep) a = true ->
  split_on sep (a ++ String sep r) = a :: split_on sep r.
Proof.
  induction a as [|x a IH]; simpl.
  - intros _. now rewrite Ascii.eqb_refl.
  - rewrite andb_true_iff. unfold differs at 1. intros [Hx Ha].
    apply negb_true_iff in Hx. rewrite Hx, (IH Ha). reflexivity.
Qed.

Lemma split_on_last (sep : ascii) (a : string) :
  all_chars (differs sep) a = true -> split_on sep a = [a].
Proof.
  induction a as [|x a IH]; simpl; [reflexivity|].
  rewrite andb_true_iff. unfold differs at 1. intros [Hx Ha].
  apply negb_true_iff in Hx. rewrite Hx, (IH Ha). reflexivity.
Qed.

Lemma split_on_concat (sep : ascii) (fs : list string) :
  fs <> [] ->
  Forall (fun f => all_chars (differs sep) f = true) fs ->
  split_on sep (String.concat (String sep "") fs) = fs.
Proof.
  induction fs as [|f fs IH]; [congruence|]. intros _ Hall.
  inversion Hall as [|? ? Hf Hfs]; subst.
  destruct fs as [|g fs].
  - simpl. now apply split_on_last.
  - change (String.concat (String sep "") (f :: g :: fs))
      with (f ++ String sep (String.concat (String sep "") (g :: fs))).
    rewrite (split_on_field _ _ _ Hf), IH; [reflexivity|discriminate|assumption].
Qed.

(** A line that does not contain a line feed is found whole. *)
Lemma lines_line (a r : string) :
  all_chars (differs "010") a = true ->
  lines (a ++ String "010" r) = a :: lines r.
Proof.
  induction a as [|x a IH]; simpl; [reflexivity|].
  rewrite andb_true_iff. unfold differs at 1. intros [Hx Ha].
  apply negb_true_iff in Hx. rewrite Hx, (IH Ha). reflexivity.
Qed.

End Text.

(** ** What the number formats can print *)
Module PrintfFacts.
Import Printf.

Lemma uint_plain (u : Decimal.uint) :
  all_chars plain (NilEmpty.string_of_uint u) = true.
Proof. induction u; simpl; try rewrite IHu; reflexivity. Qed.

Lemma digits_plain (n : Z) : forallb plain (digits_of n) = true.
Proof. unfold digits_of. rewrite Text.all_chars_to_list. apply uint_plain. Qed.

Section Preserved.
Variable p : ascii -> bool.

Lemma forallb_firstn (n : nat) (l : list ascii) :
  forallb p l = true -> forallb p (firstn n l) = true.
Proof.
  revert n. induction l as [|c l IH]; intros [|n]; simpl; auto.
  rewrite !andb_true_iff. intros [Hc Hl]. auto.
Qed.

Lemma forallb_skipn (n : nat) (l : list ascii) :
  forallb p l = true -> forallb p (skipn n l) = true.
Proof.
  revert n. induction l as [|c l IH]; intros [|n]; simpl; auto.
  rewrite !andb_true_iff. intros [Hc Hl]. auto.
Qed.

Lemma forallb_strip_zeros (l : list ascii) :
  forallb p l = true -> forallb p (strip_zeros l) = true.
Proof.
  induction l as [|c l IH]; simpl; [reflexivity|].
  rewrite andb_true_iff. intros [Hc Hl]. specialize (IH Hl).
  destruct (strip_zeros l) as [|d r].
  - destruct (Ascii.eqb c "0"); simpl; [reflexivity | now rewrite Hc].
  - simpl in *. now rewrite Hc, IH.
Qed.

Lemma forallb_repeat (c : ascii) (n : nat) :
  p c = true -> forallb p (repeat c n) = true.
Proof. intros Hc. induction n; simpl; [reflexivity | now rewrite Hc]. Qed.

Lemma forallb_with_point (ip frac : list ascii) :
  p "."%char = true -> forallb p ip = true -> forallb p frac = true ->
  forallb p (with_point ip frac) = true.
Proof.
  intros Hdot Hip Hfrac. destruct frac as [|c r]; simpl; [assumption|].
  rewrite forallb_app. simpl in *. now rewrite Hip, Hdot, Hfrac.
Qed.
End Preserved.

Lemma exponent_text_plain (x : Z) : forallb plain (exponent_text x) = true.
Proof.
  unfold exponent_text.
  destruct (x <? 0)%Z, (Z.abs x <? 10)%Z; simpl; apply digits_plain.
Qed.

Lemma general_plain (num den : Z) : forallb plain (general num den) = true.
Proof.
  unfold general. destruct (six_digits num den) as [d x].
  pose proof (digits_plain d) as Hd.
  destruct ((-4 <=? x)%Z && (x <? 6)%Z); [destruct (0 <=? x)%Z|].
  - apply forallb_with_point; [reflexivity| |].
    + now apply forallb_firstn.
    + now apply forallb_strip_zeros, forallb_skipn.
  - apply forallb_with_point; [reflexivity|reflexivity|].
    apply forallb_strip_zeros. rewrite forallb_app, Hd.
    now rewrite forallb_repeat.
  - rewrite forallb_app. apply andb_true_iff; split.
    + apply forallb_with_point; [reflexivity| |].
      * now apply forallb_firstn.
      * now apply forallb_strip_zeros, forallb_skipn.
    + change (plain "e" && forallb plain (exponent_text x) = true).
      now rewrite exponent_text_plain.
Qed.

Lemma double_plain (x : float) : all_chars plain (Printf.double x) = true.
Proof.
  unfold Printf.double, double_chars. rewrite Text.all_chars_of_list.
  destruct (Prim2SF x) as [[]|[]| |[] m e]; try reflexivity;
    destruct (0 <=? e)%Z; simpl; rewrite ?general_plain; reflexivity
    || apply general_plain.
Qed.

Lemma size_t_plain (n : nat) : all_chars plain (Printf.size_t n) = true.
Proof. apply uint_plain. Qed.

End PrintfFacts.

(** ** Streams and the text the member functions write *)
Module Written.
Local Open Scope string_scope.

Lemma insert_good {A : Type} `{Insertable A} (os : ostream) (a : A) :
  good os = true -> os << a = {| good := true; text := text os ++ inserted a |}.
Proof. unfold insert. now intros ->. Qed.

Lemma insert_bad {A : Type} `{Insertable A} (os : ostream) (a : A) :
  good os = false -> os << a = os.
Proof. unfold insert. now intros ->. Qed.

Lemma insert_insert {A B : Type} `{Insertable A} `{Insertable B}
    (os : ostream) (a : A) (b : B) :
  os << a << b = os << (inserted a ++ inserted b).
Proof.
  destruct os as [[] txt]; unfold insert; simpl; [|reflexivity].
  now rewrite Text.append_assoc.
Qed.

Lemma insert_empty (os : ostream) : os << "" = os.
Proof.
  destruct os as [[] txt]; unfold insert; simpl; [|reflexivity].
  unfold inserted, Insertable_string. now rewrite Text.append_nil_r.
Qed.

Lemma good_insert {A : Type} `{Insertable A} (os : ostream) (a : A) :
  good (os << a) = good os.
Proof. destruct os as [[] txt]; reflexivity. Qed.

Lemma statistics_nonempty (t : PerfTimer) :
  _timeDiff t <> [] -> exists st, statistics t = Returns st.
Proof.
  unfold statistics. destruct (_timeDiff t) as [|x r]; [congruence|]. intros _.
  simpl minmax_element. destruct (minmax_from x x r). eauto.
Qed.

Lemma reportStats_text (t : PerfTimer) (st : Stats) (os : ostream) :
  statistics t = Returns st ->
  reportStats t os =
  Returns (os << (name_line t ++ endl ++ stats_line st ++ endl)).
Proof.
  intros Hst. unfold reportStats. rewrite Hst. cbn [bind].
  unfold stats_line, entry, name_line.
  destruct (_converter (totalTime st)) as [x1 u1].
  destruct (_converter (avgTime st)) as [x2 u2].
  destruct (_converter (stdDev st)) as [x3 u3].
  destruct (_converter (minTime st)) as [x4 u4].
  destruct (_converter (maxTime st)) as [x5 u5].
  cbn [fst snd]. f_equal. rewrite !insert_insert. f_equal.
  unfold inserted, Insertable_string, Insertable_double, Insertable_size_t.
  rewrite !Text.append_assoc. reflexivity.
Qed.

Lemma skipn_nth_error (v : list float) (i : nat) (x : float) :
  nth_error v i = Some x -> skipn i v = x :: skipn (S i) v.
Proof.
  revert i. induction v as [|y v IH]; intros [|i]; simpl; try discriminate.
  - now intros [= ->].
  - intros Hi. now rewrite (IH _ Hi).
Qed.

Lemma write_from_text (v : list float) (count i : nat) (os : ostream) :
  i + count = List.length v ->
  write_from v i count os = Returns (os << comma_items (skipn i v)).
Proof.
  revert i os. induction count as [|c IH]; intros i os Hlen; simpl.
  - rewrite skipn_all2 by lia. simpl. now rewrite insert_empty.
  - unfold at_index.
    destruct (nth_error v i) as [x|] eqn:Hx.
    + cbn [bind]. rewrite IH by lia. rewrite (skipn_nth_error _ _ _ Hx).
      simpl comma_items. rewrite !insert_insert. reflexivity.
    + apply nth_error_None in Hx. lia.
Qed.

Lemma samples_line_cons (x : float) (r : list float) :
  samples_line (x :: r) = Printf.double x ++ comma_items r.
Proof.
  unfold samples_line. revert x. induction r as [|y r IH]; intros x.
  - simpl. now rewrite Text.append_nil_r.
  - change (Printf.double x ++ "," ++ String.concat "," (map Printf.double (y :: r))
            = Printf.double x ++ comma_items (y :: r)).
    now rewrite IH.
Qed.

Lemma write_samples_text (v : list float) (os : ostream) :
  v <> [] -> write_samples v os = Returns (os << (samples_line v ++ endl)).
Proof.
  destruct v as [|x r]; [congruence|]. intros _.
  unfold write_samples. cbn [at_index nth_error bind List.length Nat.ltb Nat.leb].
  rewrite write_from_text by (simpl; lia).
  cbn [bind skipn]. rewrite samples_line_cons, !insert_insert.
  unfold inserted at 2 3 4, Insertable_string.
  now rewrite Text.append_assoc.
Qed.

End Written.

(** ** The figures of a report *)
Module Figures.
Local Open Scope float_scope.

Lemma fold_left_map {A B C : Type} (f : A -> B -> A) (g : C -> B)
    (l : list C) (init : A) :
  fold_left f (map g l) init = fold_left (fun acc x => f acc (g x)) l init.
Proof. revert init. induction l as [|x l IH]; intros init; simpl; auto. Qed.

Lemma inner_product_square (d : list float) (init : float) :
  inner_product d d init = fold_left (fun acc x => acc + x * x) d init.
Proof.
  unfold inner_product. revert init.
  induction d as [|x d IH]; intros init; simpl; auto.
Qed.

(** The two passes of [_standardDeviation] (subtract the mean, then the
    inner product of the differences with themselves) compute the sum of
    squared deviations. *)
Lemma _standardDeviation_population (t : PerfTimer) :
  _standardDeviation t = population_sd (_timeDiff t).
Proof.
  unfold _standardDeviation, population_sd, mean_of, sum_of, accumulate.
  rewrite inner_product_square, !fold_left_map. reflexivity.
Qed.

Lemma ltb_asym (x y : float) : (x <? y) = true -> (y <? x) = false.
Proof.
  intros Hxy. destruct (y <? x) eqn:Hyx; [|reflexivity].
  pose proof (FloatOrder.ltb_trans _ _ _ Hxy Hyx) as H.
  now rewrite FloatOrder.ltb_irrefl in H.
Qed.

Lemma minmax_from_min (l : list float) :
  forall lo hi seen,
    In lo seen -> (forall y, In y seen -> (y <? lo) = false) ->
    is_minimum (fst (minmax_from lo hi l)) (seen ++ l).
Proof.
  induction l as [|x r IH]; intros lo hi seen Hin Hlow; simpl.
  - rewrite app_nil_r. now split.
  - replace (seen ++ x :: r)%list with ((seen ++ [x]) ++ r)%list
      by now rewrite <- app_assoc.
    apply IH; destruct (x <? lo) eqn:Hx.
    + apply in_or_app. right. now left.
    + apply in_or_app. now left.
    + intros y Hy. apply in_app_or in Hy as [Hy|[<-|[]]].
      * destruct (y <? x) eqn:Hyx; [|reflexivity].
        rewrite <- (Hlow y Hy). symmetry.
        exact (FloatOrder.ltb_trans _ _ _ Hyx Hx).
      * apply FloatOrder.ltb_irrefl.
    + intros y Hy. apply in_app_or in Hy as [Hy|[<-|[]]]; auto.
Qed.

Lemma minmax_from_max (l : list float) :
  forall lo hi seen,
    Forall (fun y => is_nan y = false) (seen ++ l) ->
    In hi seen -> (forall y, In y seen -> (hi <? y) = false) ->
    is_maximum (snd (minmax_from lo hi l)) (seen ++ l).
Proof.
  induction l as [|x r IH]; intros lo hi seen Hnan Hin Hhigh; simpl.
  - rewrite app_nil_r. now split.
  - assert (Hx_nan : is_nan x = false).
    { rewrite Forall_forall in Hnan. apply Hnan, in_or_app. right. now left. }
    assert (Hhi_nan : is_nan hi = false).
    { rewrite Forall_forall in Hnan. apply Hnan, in_or_app. now left. }
    replace (seen ++ x :: r)%list with ((seen ++ [x]) ++ r)%list in *
      by now rewrite <- app_assoc.
    apply IH; [assumption| |]; destruct (x <? hi) eqn:Hx.
    + apply in_or_app. now left.
    + apply in_or_app. right. now left.
    + intros y Hy. apply in_app_or in Hy as [Hy|[<-|[]]]; auto.
      now apply ltb_asym.
    + intros y Hy. apply in_app_or in Hy as [Hy|[<-|[]]].
      * assert (Hy_nan : is_nan y = false).
        { rewrite Forall_forall in Hnan. apply Hnan, in_or_app. left.
          apply in_or_app. now left. }
        apply FloatOrder.leb_ltb_false.
        apply (FloatOrder.leb_trans y hi x).
        -- apply FloatOrder.not_ltb_leb; auto.
        -- apply FloatOrder.not_ltb_leb; auto.
      * apply FloatOrder.ltb_irrefl.
Qed.

Lemma minmax_element_min (l : list float) (lo hi : float) :
  minmax_element l = Some (lo, hi) -> is_minimum lo l.
Proof.
  destruct l as [|x r]; [discriminate|]. simpl. intros [= Hmm].
  pose proof (minmax_from_min r x x [x]) as Hmin.
  rewrite Hmm in Hmin. simpl in Hmin.
  apply Hmin; [now left|]. intros y [<-|[]]. apply FloatOrder.ltb_irrefl.
Qed.

Lemma minmax_element_max (l : list float) (lo hi : float) :
  no_nan l -> minmax_element l = Some (lo, hi) -> is_maximum hi l.
Proof.
  destruct l as [|x r]; [discriminate|]. simpl. intros Hnan [= Hmm].
  pose proof (minmax_from_max r x x [x]) as Hmax.
  rewrite Hmm in Hmax. simpl in Hmax.
  apply Hmax; [assumption|now left|].
  intros y [<-|[]]. apply FloatOrder.ltb_irrefl.
Qed.

End Figures.

(** ** The three lines of an exported file *)
Module Layout.
Local Open Scope string_scope.

Lemma no_newline_app (a b : string) :
  no_newline a -> no_newline b -> no_newline (a ++ b).
Proof.
  unfold no_newline. intros Ha Hb. now rewrite Text.all_chars_app, Ha, Hb.
Qed.

Lemma no_newline_double (x : float) : no_newline (Printf.double x).
Proof.
  apply (Text.all_chars_weaken plain); [apply Text.plain_no_newline|].
  apply PrintfFacts.double_plain.
Qed.

Lemma no_newline_size_t (n : nat) : no_newline (Printf.size_t n).
Proof.
  apply (Text.all_chars_weaken plain); [apply Text.plain_no_newline|].
  apply PrintfFacts.size_t_plain.
Qed.

Lemma no_newline_unit (time : float) : no_newline (snd (_converter time)).
Proof.
  unfold _converter.
  repeat match goal with
         | |- context [if ?b then _ else _] => destruct b
         end; reflexivity.
Qed.

Lemma no_newline_entry (label : string) (time : float) :
  no_newline label -> no_newline (entry label time).
Proof.
  intros Hl. unfold entry.
  apply no_newline_app; [exact Hl|].
  apply no_newline_app; [apply no_newline_double|apply no_newline_unit].
Qed.

Lemma no_newline_name_line (t : PerfTimer) :
  no_newline (_name t) -> no_newline (name_line t).
Proof. intros Hn. unfold name_line. now apply no_newline_app. Qed.

Lemma no_newline_stats_line (st : Stats) : no_newline (stats_line st).
Proof.
  unfold stats_line.
  repeat first [ apply no_newline_entry; reflexivity
               | apply no_newline_size_t
               | apply no_newline_app
               | reflexivity ].
Qed.

Lemma no_newline_comma_items (l : list float) : no_newline (comma_items l).
Proof.
  induction l as [|x r IH]; [reflexivity|].
  change (no_newline ("," ++ (Printf.double x ++ comma_items r))).
  apply no_newline_app; [reflexivity|].
  apply no_newline_app; [apply no_newline_double|exact IH].
Qed.

Lemma no_newline_samples_line (v : list float) : no_newline (samples_line v).
Proof.
  destruct v as [|x r]; [reflexivity|].
  rewrite Written.samples_line_cons.
  apply no_newline_app; [apply no_newline_double|apply no_newline_comma_items].
Qed.

Lemma three_lines (a b c : string) :
  no_newline a -> no_newline b -> no_newline c ->
  lines (a ++ endl ++ b ++ endl ++ c ++ endl) = [a; b; c].
Proof.
  intros Ha Hb Hc. unfold endl.
  change (lines (a ++ String "010" (b ++ String "010" (c ++ String "010" "")))
          = [a; b; c]).
  now rewrite !Text.lines_line.
Qed.

Lemma fields_of_samples_line (v : list float) :
  v <> [] -> split_on "," (samples_line v) = map Printf.double v.
Proof.
  intros Hv. unfold samples_line. apply Text.split_on_concat.
  - destruct v; [congruence|discriminate].
  - apply Forall_forall. intros f Hf. apply in_map_iff in Hf as [x [<- _]].
    apply (Text.all_chars_weaken plain); [apply Text.plain_no_comma|].
    apply PrintfFacts.double_plain.
Qed.

End Layout.

(** ** Unit selection *)
Module Units.
Local Open Scope float_scope.

(** From one comparison of [time] with a threshold, the comparisons with
    the thresholds it implies. *)
Ltac saturate :=
  repeat match goal with
    | H : (?c <? ?t) = true |- _ =>
        lazymatch goal with
        | _ : (t <=? c) = false |- _ => fail
        | _ => pose proof (FloatOrder.ltb_leb_false _ _ H)
        end
    end;
  repeat match goal with
    | H : (?t <=? ?c) = true |- context [?t <=? ?d] =>
        lazymatch goal with
        | _ : (t <=? d) = _ |- _ => fail
        | _ =>
            assert ((t <=? d) = true)
              by (apply (FloatOrder.leb_trans t c d); [exact H|reflexivity])
        end
    | H : (?t <=? ?c) = false |- context [?t <=? ?d] =>
        lazymatch goal with
        | _ : (t <=? d) = _ |- _ => fail
        | _ =>
            assert ((t <=? d) = false)
              by (apply (FloatOrder.leb_false_ge t d c); [exact H|reflexivity])
        end
    end.

Lemma converter_in_tier (k : Tier) (time : float) :
  in_tier k time -> _converter time = (scaled k time, label k).
Proof.
  destruct k; simpl; unfold _converter;
    try (intros [Hlo Hhi]); try intros H; saturate;
    repeat match goal with
      | H : (?t <=? ?c) = _ |- context [?t <=? ?c] => rewrite H
      end; reflexivity.
Qed.

Lemma tier_exists (time : float) : exists k, in_tier k time.
Proof.
  destruct (is_nan time) eqn:Hnan.
  - exists Hours. now apply FloatOrder.leb_nan.
  - destruct (time <=? 1.0E3) eqn:H1; [now exists Finest|].
    destruct (time <=? 1.0E6) eqn:H2;
      [exists Micro; split; auto; now apply FloatOrder.not_leb_ltb|].
    destruct (time <=? 1.0E9) eqn:H3;
      [exists Milli; split; auto; now apply FloatOrder.not_leb_ltb|].
    destruct (time <=? 6.0E11) eqn:H4;
      [exists Base; split; auto; now apply FloatOrder.not_leb_ltb|].
    destruct (time <=? 1.08E13) eqn:H5;
      [exists Minutes; split; auto; now apply FloatOrder.not_leb_ltb|].
    now exists Hours.
Qed.

Lemma label_inj (k k' : Tier) : label k = label k' -> k = k'.
Proof. destruct k, k'; simpl; intros H; try reflexivity; discriminate. Qed.

Lemma tier_unique (k k' : Tier) (time : float) :
  in_tier k time -> in_tier k' time -> k = k'.
Proof.
  intros Hk Hk'. apply label_inj.
  apply converter_in_tier in Hk, Hk'. congruence.
Qed.

End Units.

(** ** The samples a client can produce *)

Lemma call_keeps_no_nan (env : Env) (c : Call) (s s' : PerfTimer * IO) :
  no_nan (_timeDiff (fst s)) -> call env c s = Returns s' ->
  no_nan (_timeDiff (fst s')).
Proof.
  destruct s as [t io]. simpl fst. intros Hv.
  destruct c as [now|now| |filePath]; simpl.
  - unfold startTimer. destruct (_activeTimer t); now intros [= <-].
  - intros [= <-]. simpl. apply Forall_app. split; [exact Hv|].
    constructor; [apply Casts.double_of_count_not_nan|constructor].
  - destruct (reportStats t (cout io)); simpl; try discriminate.
    now intros [= <-].
  - destruct (saveTimingData env filePath t io); simpl; try discriminate.
    now intros [= <-].
Qed.

Lemma run_keeps_no_nan (env : Env) (cs : list Call) :
  forall s s', no_nan (_timeDiff (fst s)) -> run env cs s = Returns s' ->
               no_nan (_timeDiff (fst s')).
Proof.
  induction cs as [|c cs IH]; intros s s' Hv; simpl.
  - now intros [= <-].
  - destruct (call env c s) as [s1| |] eqn:Hc; simpl; try discriminate.
    apply IH. exact (call_keeps_no_nan env c s s1 Hv Hc).
Qed.

Lemma reachable_no_nan (t : PerfTimer) : reachable t -> no_nan (_timeDiff t).
Proof.
  intros (env & name & cs & io & io' & Hrun).
  exact (run_keeps_no_nan env cs (new_PerfTimer name, io) (t, io')
           (Forall_nil _) Hrun).
Qed.

(** ** The armed flag *)

Lemma call_keeps_flag_clear (env : Env) (c : Call) (s s' : PerfTimer * IO) :
  _activeTimer (fst s) = false -> call env c s = Returns s' ->
  _activeTimer (fst s') = false.
Proof.
  destruct s as [t io]. simpl fst. intros Hflag.
  destruct c as [now|now| |filePath]; simpl.
  - unfold startTimer. rewrite Hflag. now intros [= <-].
  - now intros [= <-].
  - destruct (reportStats t (cout io)); simpl; try discriminate.
    now intros [= <-].
  - destruct (saveTimingData env filePath t io); simpl; try discriminate.
    now intros [= <-].
Qed.

Lemma run_keeps_flag_clear (env : Env) (cs : list Call) :
  forall s s', _activeTimer (fst s) = false -> run env cs s = Returns s' ->
               _activeTimer (fst s') = false.
Proof.
  induction cs as [|c cs IH]; intros s s' Hflag; simpl.
  - now intros [= <-].
  - destruct (call env c s) as [s1| |] eqn:Hc; simpl; try discriminate.
    apply IH. exact (call_keeps_flag_clear env c s s1 Hflag Hc).
Qed.

(** C10: in every state reached from the constructor by calls of
    [startTimer], [stopTimer], [reportStats] and [saveTimingData], the flag
    [_activeTimer] is false; hence [startTimer] never takes its "already
    active" branch (it prints nothing and overwrites the start mark with the
    clock reading), and [stopTimer] appends exactly one sample. *)
Theorem activeTimer_always_false (t : PerfTimer) :
  reachable t ->
  _activeTimer t = false /\
  (forall now io,
      startTimer now t io =
      ({| _startTime := now; _timeDiff := _timeDiff t;
          _activeTimer := false; _name := _name t |}, io)) /\
  (forall now,
      _timeDiff (stopTimer now t) =
      _timeDiff t ++ [double_of_count (now - _startTime t)] /\
      List.length (_timeDiff (stopTimer now t)) = S (List.length (_timeDiff t))).
Proof.
  intros (env & name & cs & io & io' & Hrun).
  assert (Hflag : _activeTimer t = false)
    by exact (run_keeps_flag_clear env cs (new_PerfTimer name, io) (t, io')
                eq_refl Hrun).
  split; [exact Hflag|]. split.
  - intros now io1. unfold startTimer. now rewrite Hflag.
  - intros now. simpl. split; [reflexivity|].
    rewrite length_app. simpl. lia.
Qed.

Lemma activeTimer_always_false_witness :
  let t := {| _startTime := 10%Z; _timeDiff := [40%float];
              _activeTimer := false; _name := "t" |} in
  reachable t /\
  _activeTimer t = false /\
  startTimer 70%Z t quiet =
    ({| _startTime := 70%Z; _timeDiff := [40%float];
        _activeTimer := false; _name := "t" |}, quiet).
Proof.
  intros t.
  assert (Hr : reachable t).
  { exists writable_fs, "t"%string, [CallStart 10%Z; CallStop 50%Z], quiet, quiet.
    vm_compute. reflexivity. }
  split; [exact Hr|].
  destruct (activeTimer_always_false t Hr) as (Hflag & Hstart & _).
  split; [exact Hflag|]. exact (Hstart 70%Z quiet).
Defined.

(** The branch that the flag guards, taken alone: were [_activeTimer]
    true, a start would print the diagnostic and leave the timer as it is.
    No call sets the flag, so no client reaches this branch. *)
Lemma startTimer_active_branch (now : time_point) (t : PerfTimer) (io : IO) :
  _activeTimer t = true ->
  startTimer now t io =
  (t, {| cout := cout io << _name t
                         << "::timer is already active. No action taken"%string;
         cerr := cerr io; files := files io |}).
Proof. unfold startTimer. now intros ->. Qed.

(** Clock readings are tick counts since the epoch in a signed 64-bit
    representation; the difference of two of them fits it, so the
    subtraction in [stopTimer] is the machine's. *)
Lemma stopTimer_count_fits (now : time_point) (t : PerfTimer) :
  (0 <= now < 2 ^ 63)%Z -> (0 <= _startTime t < 2 ^ 63)%Z ->
  (- 2 ^ 63 <= now - _startTime t < 2 ^ 63)%Z.
Proof. lia. Qed.

(** C1 (the code departs from it): a start on an unarmed timer, the
    freshly constructed one included, records the clock reading as the
    start mark and leaves [_activeTimer] false: the flag is not true between
    this start and its stop. *)
Theorem startTimer_does_not_arm (start now : time_point) (samples : list float)
    (name : string) (io : IO) :
  startTimer now
    {| _startTime := start; _timeDiff := samples; _activeTimer := false;
       _name := name |} io =
  ({| _startTime := now; _timeDiff := samples; _activeTimer := false;
      _name := name |}, io)
  /\ _activeTimer (fst (startTimer 10%Z (new_PerfTimer "t") quiet)) = false
  /\ _startTime (fst (startTimer 10%Z (new_PerfTimer "t") quiet)) = 10%Z.
Proof. repeat split. Qed.

(** C8 (the code departs from it): after a start at 10, a further start at
    20 prints nothing and replaces the start mark, and the stop at 50
    records 30 ticks, measured from the later start, where the original
    start would give 40. *)
Theorem second_start_replaces_mark (env : Env) (name : string) (io : IO) :
  run env [CallStart 10%Z; CallStart 20%Z; CallStop 50%Z] (new_PerfTimer name, io) =
  Returns ({| _startTime := 20%Z; _timeDiff := [30%float];
              _activeTimer := false; _name := name |}, io)
  /\ double_of_count (50 - 10) = 40%float.
Proof. split; reflexivity. Qed.

(** ** Stopping a timer that was not started *)

(** C2, refuted as stated: on the freshly constructed timer, whose flag is
    false, a stop at clock reading 5 returns; it does not fail with
    [InvalidState], and it appends the difference to the epoch as a
    sample. *)
Lemma stop_unarmed_is_no_error :
  _activeTimer (new_PerfTimer "t") = false /\
  call writable_fs (CallStop 5%Z) (new_PerfTimer "t", quiet) <> Throws InvalidState /\
  call writable_fs (CallStop 5%Z) (new_PerfTimer "t", quiet) =
  Returns ({| _startTime := 0%Z; _timeDiff := [5%float];
              _activeTimer := false; _name := "t" |}, quiet).
Proof. split; [reflexivity|]. split; [discriminate|reflexivity]. Qed.

(** C2, amended: a stop on a timer that is not armed does not fail; it
    returns, having appended as a sample the difference between the clock
    reading and the last recorded start mark (the epoch when no start was
    ever called), and leaves the flag false. *)
Theorem stopTimer_unarmed_appends (env : Env) (now : time_point)
    (t : PerfTimer) (io : IO) :
  _activeTimer t = false ->
  call env (CallStop now) (t, io) =
  Returns ({| _startTime := _startTime t;
              _timeDiff := _timeDiff t ++ [double_of_count (now - _startTime t)];
              _activeTimer := false; _name := _name t |}, io).
Proof. intros _. reflexivity. Qed.

Lemma stopTimer_unarmed_appends_witness :
  _activeTimer (new_PerfTimer "t") = false /\
  call writable_fs (CallStop 5%Z) (new_PerfTimer "t", quiet) =
  Returns ({| _startTime := 0%Z;
              _timeDiff := [] ++ [double_of_count (5 - 0)];
              _activeTimer := false; _name := "t" |}, quiet).
Proof.
  split; [reflexivity|].
  exact (stopTimer_unarmed_appends writable_fs 5%Z (new_PerfTimer "t") quiet eq_refl).
Defined.

(** ** Reports without samples *)

(** C3 (the code departs from it): on a timer without samples
    [reportStats] raises nothing: the mean is the quotient 0/0, a NaN, so is
    the standard deviation, and the extrema are read through the end
    iterator, which is undefined behaviour. *)
Theorem reportStats_without_samples (start : time_point) (active : bool)
    (name : string) (os : ostream) :
  let t := {| _startTime := start; _timeDiff := [];
              _activeTimer := active; _name := name |} in
  reportStats t os = Undefined /\
  reportStats t os <> Throws NoSamples /\
  is_nan (accumulate (_timeDiff t) 0 / double_of_size (List.length (_timeDiff t)))
    = true /\
  is_nan (_standardDeviation t) = true /\
  minmax_element (_timeDiff t) = None.
Proof.
  intros t. repeat split; try reflexivity. discriminate.
Qed.

(** C4 (the code departs from it): on a timer without samples
    [saveTimingData] raises nothing; writing the samples reads element 0 of
    the empty vector before the size is tested, after [reportStats] has
    already left defined behaviour. *)
Theorem saveTimingData_without_samples (env : Env) (filePath : string)
    (start : time_point) (active : bool) (name : string) (io : IO)
    (saveFile : ostream) :
  let t := {| _startTime := start; _timeDiff := [];
              _activeTimer := active; _name := name |} in
  saveTimingData env filePath t io = Undefined /\
  saveTimingData env filePath t io <> Throws NoSamples /\
  at_index (_timeDiff t) 0 = Undefined /\
  write_samples (_timeDiff t) saveFile = Undefined.
Proof.
  intros t. repeat split; try reflexivity. discriminate.
Qed.

(** ** Export *)

Lemma saveTimingData_returns (env : Env) (filePath : string) (t : PerfTimer)
    (io : IO) (st : Stats) :
  statistics t = Returns st -> _timeDiff t <> [] ->
  saveTimingData env filePath t io =
  Returns
    {| cout := if openable env filePath
               then cout io << "yes I'm open"%string << endl else cout io;
       cerr := if openable env filePath then cerr io
               else cerr io << "PerfTimer output file failed to open. Error: "%string
                            << strerror_errno env << endl;
       files := ofstream_close filePath
                  ({| good := openable env filePath; text := "" |}
                     << (name_line t ++ endl ++ stats_line st ++ endl)%string
                     << (samples_line (_timeDiff t) ++ endl)%string)
                  (files io) |}.
Proof.
  intros Hst Hv. unfold saveTimingData, ofstream_open, is_open. cbn [good].
  rewrite (Written.reportStats_text t st _ Hst). cbn [bind].
  rewrite (Written.write_samples_text _ _ Hv). cbn [bind].
  destruct (openable env filePath); reflexivity.
Qed.

(** C5, refuted as stated: where no path opens, exporting the timer with
    samples 100, 200, 300 returns to the caller; it does not fail with
    [IOError]; the failure is a line on the error console. *)
Lemma unopened_sink_is_no_error :
  openable readonly_fs "out.csv" = false /\
  saveTimingData readonly_fs "out.csv" three_runs quiet <> Throws IOError /\
  saveTimingData readonly_fs "out.csv" three_runs quiet =
  Returns {| cout := mk_ostream true "";
             cerr := mk_ostream true
                       ("PerfTimer output file failed to open. Error: Permission denied"
                          ++ endl);
             files := fun _ => None |}.
Proof.
  split; [reflexivity|].
  assert (H : saveTimingData readonly_fs "out.csv" three_runs quiet =
              Returns {| cout := mk_ostream true "";
                         cerr := mk_ostream true
                           ("PerfTimer output file failed to open. Error: Permission denied"
                              ++ endl);
                         files := fun _ => None |})
    by (vm_compute; reflexivity).
  split; [rewrite H; discriminate|exact H].
Qed.

(** C5, amended: when the sink cannot be opened, [saveTimingData] on a timer
    with samples does not fail: it writes a diagnostic with the system's
    error text on the error console and goes on; the header lines and the
    samples are then inserted into the unopened stream, which drops them, so
    no file changes and the standard output is left as it was; the call
    returns normally. *)
Theorem saveTimingData_unopened_sink (env : Env) (filePath : string)
    (t : PerfTimer) (io : IO) :
  openable env filePath = false -> _timeDiff t <> [] ->
  saveTimingData env filePath t io =
  Returns {| cout := cout io;
             cerr := cerr io << "PerfTimer output file failed to open. Error: "%string
                             << strerror_errno env << endl;
             files := files io |}.
Proof.
  intros Hopen Hv. destruct (Written.statistics_nonempty t Hv) as [st Hst].
  rewrite (saveTimingData_returns env filePath t io st Hst Hv), Hopen.
  reflexivity.
Qed.

Lemma saveTimingData_unopened_sink_witness :
  openable readonly_fs "out.csv" = false /\ _timeDiff three_runs <> [] /\
  saveTimingData readonly_fs "out.csv" three_runs quiet =
  Returns {| cout := cout quiet;
             cerr := cerr quiet << "PerfTimer output file failed to open. Error: "%string
                                << strerror_errno readonly_fs << endl;
             files := files quiet |}.
Proof.
  split; [reflexivity|]. split; [discriminate|].
  apply (saveTimingData_unopened_sink readonly_fs "out.csv" three_runs quiet).
  - reflexivity.
  - discriminate.
Defined.

(** ** Reading a printed double back

    The digits of a number and their value, the six digits of a
    finite double, the layout that [Strtod.parse] reads, and the double
    that the reading of a printed double gives. *)

Module NumeralFacts.
Import Numeral.
Local Open Scope Z_scope.

Ltac eval_digit :=
  repeat match goal with
         | |- context [digit ?c] =>
             let v := eval vm_compute in (digit c) in change (digit c) with v
         end.

Lemma uint_chars_digits (u : Decimal.uint) : forallb is_digit (uint_chars u) = true.
Proof. unfold uint_chars. induction u; simpl; auto. Qed.

Lemma uint_chars_length (u : Decimal.uint) :
  List.length (uint_chars u) = Decimal.nb_digits u.
Proof. unfold uint_chars. induction u; simpl; auto. Qed.

Lemma value_from_acc (u : Decimal.uint) :
  forall acc : positive,
    value_from (Zpos acc) (uint_chars u) = Zpos (Pos.of_uint_acc u acc).
Proof.
  unfold uint_chars, value_from.
  induction u; intros acc;
    cbn [NilEmpty.string_of_uint list_ascii_of_string fold_left Pos.of_uint_acc];
    try reflexivity; rewrite <- IHu; f_equal; eval_digit; lia.
Qed.

Lemma value_uint (u : Decimal.uint) :
  value (uint_chars u) = Z.of_N (Pos.of_uint u).
Proof.
  unfold value, value_from, uint_chars in *.
  induction u;
    cbn [NilEmpty.string_of_uint list_ascii_of_string fold_left Pos.of_uint];
    try reflexivity; eval_digit; try exact IHu;
    exact (value_from_acc u _).
Qed.

Lemma value_digits_of (n : Z) : 0 <= n -> value (Printf.digits_of n) = n.
Proof.
  intros Hn. unfold Printf.digits_of. fold (uint_chars (N.to_uint (Z.to_N n))).
  rewrite value_uint. change (Pos.of_uint ?u) with (N.of_uint u).
  rewrite DecimalN.Unsigned.of_to. lia.
Qed.

Lemma digits_of_digits (n : Z) : forallb is_digit (Printf.digits_of n) = true.
Proof. apply uint_chars_digits. Qed.

Lemma value_from_app (a b : list ascii) (acc : Z) :
  value_from acc (a ++ b) = value_from (value_from acc a) b.
Proof. unfold value_from. apply fold_left_app. Qed.

Lemma digit_range (c : ascii) : 0 <= digit c <= 9.
Proof.
  unfold digit, Strtod.digit_value.
  destruct ((48 <=? Z.of_nat (nat_of_ascii c)) && (Z.of_nat (nat_of_ascii c) <=? 57)) eqn:E;
    [|lia].
  apply andb_true_iff in E. lia.
Qed.

Lemma value_from_bounds (l : list ascii) :
  forall acc, 0 <= acc ->
    acc * 10 ^ Z.of_nat (List.length l) <= value_from acc l
    < (acc + 1) * 10 ^ Z.of_nat (List.length l).
Proof.
  induction l as [|c l IH]; intros acc Hacc.
  - simpl. lia.
  - change (value_from acc (c :: l)) with (value_from (10 * acc + digit c) l).
    pose proof (digit_range c) as Hc.
    specialize (IH (10 * acc + digit c) ltac:(lia)).
    replace (Z.of_nat (List.length (c :: l))) with (Z.of_nat (List.length l) + 1)
      by (simpl List.length; lia).
    rewrite Z.pow_add_r by lia. change (10 ^ 1) with 10.
    assert (0 < 10 ^ Z.of_nat (List.length l)) by (apply Z.pow_pos_nonneg; lia).
    nia.
Qed.

Lemma value_from_linear (l : list ascii) :
  forall acc, value_from acc l = acc * 10 ^ Z.of_nat (List.length l) + value l.
Proof.
  unfold value.
  induction l as [|c l IH]; intros acc.
  - simpl. lia.
  - change (value_from acc (c :: l)) with (value_from (10 * acc + digit c) l).
    change (value_from 0 (c :: l)) with (value_from (10 * 0 + digit c) l).
    rewrite (IH (10 * acc + digit c)), (IH (10 * 0 + digit c)).
    replace (Z.of_nat (List.length (c :: l))) with (Z.of_nat (List.length l) + 1)
      by (simpl List.length; lia).
    rewrite Z.pow_add_r by lia. lia.
Qed.

(** The numeral of a number is normal: no leading zero, except for zero. *)
Lemma to_uint_normal (n : N) : Decimal.unorm (N.to_uint n) = N.to_uint n.
Proof.
  rewrite <- (DecimalN.Unsigned.to_of (N.to_uint n)).
  now rewrite DecimalN.Unsigned.of_to.
Qed.

Lemma digits_of_bounds (n : Z) :
  1 <= n ->
  10 ^ (Z.of_nat (List.length (Printf.digits_of n)) - 1) <= n
  < 10 ^ Z.of_nat (List.length (Printf.digits_of n)).
Proof.
  intros Hn. pose proof (value_digits_of n ltac:(lia)) as Hv.
  pose proof (to_uint_normal (Z.to_N n)) as Hnorm.
  unfold Printf.digits_of in *. fold (uint_chars (N.to_uint (Z.to_N n))) in *.
  set (u := N.to_uint (Z.to_N n)) in *. split.
  - destruct u as [|r|r|r|r|r|r|r|r|r|r] eqn:Eu;
      try (unfold value, uint_chars in Hv |- *;
           cbn [NilEmpty.string_of_uint list_ascii_of_string fold_left value_from
                List.length] in Hv |- *;
           revert Hv; eval_digit; intros Hv;
           match type of Hv with
           | fold_left _ ?l ?a = _ =>
               pose proof (value_from_bounds l a ltac:(lia)) as Hb;
               unfold value_from in Hb; rewrite Hv in Hb
           end;
           replace (Z.of_nat (S (List.length (list_ascii_of_string
                      (NilEmpty.string_of_uint r)))) - 1)
             with (Z.of_nat (List.length (list_ascii_of_string
                      (NilEmpty.string_of_uint r)))) by lia;
           lia).
    + exfalso. exact (DecimalFacts.unorm_nonnil _ Hnorm).
    + exfalso. rewrite DecimalFacts.unorm_D0 in Hnorm.
      assert (Hr : Decimal.nzhead r = Decimal.Nil).
      { unfold Decimal.unorm in Hnorm.
        destruct (Decimal.nzhead r) eqn:Er; try reflexivity;
          try discriminate.
        exfalso. exact (DecimalFacts.nzhead_nonzero r _ Er). }
      assert (Hz : Pos.of_uint r = 0%N).
      { clear - Hr. induction r; simpl in *; try discriminate; auto. }
      rewrite value_uint in Hv. cbn [Pos.of_uint] in Hv. rewrite Hz in Hv.
      simpl in Hv. lia.
  - pose proof (value_from_bounds (uint_chars u) 0 ltac:(lia)) as Hb.
    fold (value (uint_chars u)) in Hb. rewrite Hv in Hb. lia.
Qed.

Lemma below_one_spec (fuel : nat) :
  forall num den k,
    0 < num -> 0 < den ->
    (exists j, 0 <= j <= Z.of_nat fuel /\ den <= num * 10 ^ j) ->
    let r := Printf.below_one fuel num den k in
    r <= k /\ den <= num * 10 ^ (k - r) /\
    (r < k -> num * 10 ^ (k - r - 1) < den).
Proof.
  induction fuel as [|f IH]; intros num den k Hnum Hden (j & Hj & Hle);
    cbn [Printf.below_one]; cbv zeta.
  - replace j with 0 in Hle by lia. rewrite Z.sub_diag.
    rewrite Z.pow_0_r in *. lia.
  - destruct (Z.leb_spec den num) as [Hdn|Hdn].
    + rewrite Z.sub_diag, Z.pow_0_r. lia.
    + assert (Hj1 : 1 <= j).
      { destruct (Z.eq_dec j 0) as [->|]; [rewrite Z.pow_0_r in Hle; lia|lia]. }
      pose proof (IH (10 * num) den (k - 1) ltac:(lia) Hden) as IH'.
      cbv zeta in IH'.
      destruct IH' as (Hr & Hup & Hlow).
      { exists (j - 1). split; [lia|].
        replace (10 * num * 10 ^ (j - 1)) with (num * (10 ^ 1 * 10 ^ (j - 1))) by lia.
        rewrite <- Z.pow_add_r by lia. now replace (1 + (j - 1)) with j by lia. }
      set (r := Printf.below_one f (10 * num) den (k - 1)) in *.
      split; [lia|]. split.
      * replace (k - r) with (1 + (k - 1 - r)) by lia.
        rewrite Z.pow_add_r by lia. change (10 ^ 1) with 10. lia.
      * intros _. destruct (Z.eq_dec r (k - 1)) as [->|Hne].
        -- replace (k - (k - 1) - 1) with 0 by lia. rewrite Z.pow_0_r. lia.
        -- specialize (Hlow ltac:(lia)).
           replace (k - r - 1) with (1 + (k - 1 - r - 1)) by lia.
           rewrite Z.pow_add_r by lia. change (10 ^ 1) with 10. lia.
Qed.

Lemma decimal_exponent_spec (num den : Z) :
  0 < num -> 0 < den -> den <= num * 10 ^ 400 ->
  let x := Printf.decimal_exponent num den in
  den * 10 ^ Z.max 0 x <= num * 10 ^ Z.max 0 (- x)
  < den * 10 ^ Z.max 0 x * 10.
Proof.
  intros Hnum Hden Hbound. unfold Printf.decimal_exponent.
  destruct (Z.leb_spec den num) as [Hdn|Hdn].
  - assert (Hq : 1 <= num / den) by (apply Z.div_le_lower_bound; lia).
    pose proof (digits_of_bounds (num / den) Hq) as [Hlo Hhi].
    set (L := Z.of_nat (List.length (Printf.digits_of (num / den)))) in *.
    assert (HL : 1 <= L).
    { destruct (Z.leb_spec 1 L) as [|HL0]; [lia|].
      replace L with 0 in Hhi by lia. simpl in Hhi. lia. }
    cbv zeta. rewrite Z.max_r by lia. rewrite Z.max_l by lia.
    rewrite Z.pow_0_r, Z.mul_1_r.
    assert (Hp : 0 < 10 ^ (L - 1)) by (apply Z.pow_pos_nonneg; lia).
    assert (E : 10 ^ L = 10 * 10 ^ (L - 1))
      by (rewrite <- Z.pow_succ_r by lia; f_equal; lia).
    rewrite E in Hhi.
    pose proof (Z.mul_div_le num den Hden).
    pose proof (Z.mod_pos_bound num den Hden).
    pose proof (Z.div_mod num den ltac:(lia)).
    nia.
  - destruct (below_one_spec 400 num den 0 Hnum Hden) as (Hr & Hup & Hlow).
    { exists 400. split; [lia|exact Hbound]. }
    cbv zeta. set (r := Printf.below_one 400 num den 0) in *.
    assert (Hr0 : r < 0).
    { destruct (Z.eq_dec r 0) as [E|]; [|lia]. rewrite E in Hup. simpl in Hup. lia. }
    specialize (Hlow Hr0).
    rewrite Z.max_l by lia. rewrite Z.max_r by lia.
    rewrite Z.pow_0_r, Z.mul_1_r.
    replace (0 - r) with (- r) in * by lia.
    replace (- r) with (1 + (- r - 1)) at 2 by lia.
    rewrite Z.pow_add_r by lia. change (10 ^ 1) with 10.
    replace (0 - r - 1) with (- r - 1) in Hlow by lia. lia.
Qed.

End NumeralFacts.

Module SixDigits.
Import Numeral NumeralFacts.
Local Open Scope Z_scope.

Lemma round_half_even_bounds (a b lo hi : Z) :
  0 < b -> lo * b <= a < hi * b ->
  lo <= Printf.round_half_even a b <= hi.
Proof.
  intros Hb [Hlo Hhi]. unfold Printf.round_half_even.
  pose proof (Z.div_mod a b ltac:(lia)).
  pose proof (Z.mod_pos_bound a b Hb).
  assert (lo <= a / b) by (apply Z.div_le_lower_bound; lia).
  assert (a / b < hi) by (apply Z.div_lt_upper_bound; lia).
  destruct (b <? 2 * (a mod b)); [lia|].
  destruct (2 * (a mod b) =? b); [destruct (Z.even (a / b))|]; lia.
Qed.

Lemma six_digits_range (num den : Z) :
  0 < num -> 0 < den -> den <= num * 10 ^ 400 ->
  100000 <= fst (Printf.six_digits num den) < 1000000.
Proof.
  intros Hnum Hden Hb. unfold Printf.six_digits. cbv zeta.
  pose proof (decimal_exponent_spec num den Hnum Hden Hb) as Hx.
  cbv zeta in Hx. set (x := Printf.decimal_exponent num den) in *.
  assert (Hd : 100000 <=
               (if 0 <=? 5 - x then Printf.round_half_even (num * 10 ^ (5 - x)) den
                else Printf.round_half_even num (den * 10 ^ (- (5 - x))))
               <= 1000000).
  { destruct (Z.leb_spec 0 (5 - x)) as [Hk|Hk].
    - apply round_half_even_bounds; [lia|].
      destruct (Z.leb_spec 0 x) as [Hx0|Hx0].
      + rewrite (Z.max_r 0 x), (Z.max_l 0 (- x)), Z.pow_0_r, Z.mul_1_r in Hx by lia.
        assert (Hp : 0 < 10 ^ (5 - x)) by (apply Z.pow_pos_nonneg; lia).
        assert (E : 10 ^ x * 10 ^ (5 - x) = 100000).
        { rewrite <- Z.pow_add_r by lia. now replace (x + (5 - x)) with 5 by lia. }
        nia.
      + rewrite (Z.max_l 0 x), (Z.max_r 0 (- x)), Z.pow_0_r, Z.mul_1_r in Hx by lia.
        assert (E : 10 ^ (5 - x) = 10 ^ (- x) * 100000).
        { replace (5 - x) with (- x + 5) by lia. now rewrite Z.pow_add_r by lia. }
        rewrite E. nia.
    - rewrite (Z.max_r 0 x), (Z.max_l 0 (- x)), Z.pow_0_r, Z.mul_1_r in Hx by lia.
      assert (Hp : 0 < 10 ^ (- (5 - x))) by (apply Z.pow_pos_nonneg; lia).
      apply round_half_even_bounds; [nia|].
      assert (E : 10 ^ x = 10 ^ (- (5 - x)) * 100000).
      { replace x with (- (5 - x) + 5) at 1 by lia. now rewrite Z.pow_add_r by lia. }
      rewrite E in Hx. nia. }
  destruct (Z.eqb_spec
              (if 0 <=? 5 - x then Printf.round_half_even (num * 10 ^ (5 - x)) den
               else Printf.round_half_even num (den * 10 ^ (- (5 - x)))) 1000000);
    cbn [fst]; lia.
Qed.

(** The value of a finite double as a fraction: both parts positive, and
    the denominator no more than ten to the four hundredth times the
    numerator. *)
Lemma finite_fraction (x : float) (s : bool) (m : positive) (e : Z) :
  Prim2SF x = S754_finite s m e ->
  let num := if 0 <=? e then Zpos m * 2 ^ e else Zpos m in
  let den := if 0 <=? e then 1 else 2 ^ (- e) in
  0 < num /\ 0 < den /\ den <= num * 10 ^ 400.
Proof.
  intros Hx. pose proof (Prim2SF_valid x) as Hv. rewrite Hx in Hv.
  unfold SpecFloat.valid_binary, bounded, canonical_mantissa in Hv.
  apply andb_true_iff in Hv as [Hc _]. apply Z.eqb_eq in Hc.
  unfold fexp, emin in Hc.
  assert (He : -1074 <= e) by (unfold prec, emax in Hc; lia).
  cbv zeta. destruct (Z.leb_spec 0 e) as [H0|H0].
  - assert (0 < 2 ^ e) by (apply Z.pow_pos_nonneg; lia).
    assert (0 < 10 ^ 400) by (apply Z.pow_pos_nonneg; lia). nia.
  - assert (0 < 2 ^ (- e)) by (apply Z.pow_pos_nonneg; lia).
    assert (2 ^ (- e) <= 2 ^ 1074) by (apply Z.pow_le_mono_r; lia).
    assert (2 ^ 1074 <= 10 ^ 400) by (apply Z.leb_le; vm_compute; reflexivity).
    lia.
Qed.

Lemma six_digit_chars (d : Z) :
  100000 <= d < 1000000 ->
  List.length (Printf.digits_of d) = 6%nat /\
  forallb is_digit (Printf.digits_of d) = true /\
  value (Printf.digits_of d) = d.
Proof.
  intros Hd. split; [|split; [apply digits_of_digits|apply value_digits_of; lia]].
  pose proof (digits_of_bounds d ltac:(lia)) as [Hlo Hhi].
  set (L := List.length (Printf.digits_of d)) in *.
  destruct (Nat.lt_trichotomy L 6) as [Hl|[Hl|Hl]]; [|exact Hl|]; exfalso.
  - assert (10 ^ Z.of_nat L <= 10 ^ 5) by (apply Z.pow_le_mono_r; lia).
    change (10 ^ 5) with 100000 in *. lia.
  - assert (10 ^ 6 <= 10 ^ (Z.of_nat L - 1)) by (apply Z.pow_le_mono_r; lia).
    change (10 ^ 6) with 1000000 in *. lia.
Qed.

End SixDigits.

Module Reading.
Import Numeral NumeralFacts.
Local Open Scope Z_scope.

Lemma digit_value_digit (c : ascii) :
  is_digit c = true -> Strtod.digit_value c = Some (digit c).
Proof. unfold is_digit, digit. now destruct (Strtod.digit_value c). Qed.

Lemma digit_value_other (c : ascii) :
  is_digit c = false -> Strtod.digit_value c = None.
Proof. unfold is_digit. now destruct (Strtod.digit_value c). Qed.

Lemma digit_run_digits (ds rest : list ascii) :
  forallb is_digit ds = true -> stops rest ->
  forall acc count,
    Strtod.digit_run acc count (ds ++ rest) =
    (value_from acc ds, count + Z.of_nat (List.length ds), rest).
Proof.
  intros Hds Hrest. induction ds as [|c ds IH]; intros acc count.
  - simpl app. replace (count + Z.of_nat (List.length (@nil ascii))) with count
      by (simpl; lia).
    destruct rest as [|c r]; [reflexivity|].
    cbn [Strtod.digit_run]. simpl in Hrest.
    now rewrite (digit_value_other c Hrest).
  - simpl in Hds. apply andb_true_iff in Hds as [Hc Hds].
    cbn [app Strtod.digit_run]. rewrite (digit_value_digit c Hc), (IH Hds).
    f_equal. f_equal. simpl List.length. lia.
Qed.

Lemma digit_not_sign (c : ascii) :
  is_digit c = true -> Ascii.eqb c "-" = false /\ Ascii.eqb c "+" = false.
Proof.
  intros Hc. split.
  - destruct (Ascii.eqb_spec c "-") as [->|]; [discriminate|reflexivity].
  - destruct (Ascii.eqb_spec c "+") as [->|]; [discriminate|reflexivity].
Qed.

Lemma take_sign_text (s : bool) (c : ascii) (body : list ascii) :
  is_digit c = true ->
  Strtod.take_sign (Printf.sign_text s ++ c :: body) = (s, c :: body).
Proof.
  intros Hc. destruct (digit_not_sign c Hc) as [Hm Hp].
  destruct s; cbn [Printf.sign_text app Strtod.take_sign]; [reflexivity|].
  now rewrite Hm, Hp.
Qed.

Lemma exponent_part_text (x : Z) :
  Strtod.exponent_part ("e"%char :: Printf.exponent_text x) = Some x.
Proof.
  unfold Printf.exponent_text.
  cbn [Strtod.exponent_part]. change (Ascii.eqb "e" "e") with true. cbv iota.
  set (ds := if Z.abs x <? 10 then "0"%char :: Printf.digits_of (Z.abs x)
             else Printf.digits_of (Z.abs x)).
  assert (Hds : forallb is_digit ds = true).
  { unfold ds. destruct (Z.abs x <? 10); cbn [forallb];
      rewrite digits_of_digits; reflexivity. }
  assert (Hval : value ds = Z.abs x).
  { unfold ds. destruct (Z.abs x <? 10).
    - unfold value. change (value_from 0 ("0"%char :: ?l)) with (value_from 0 l).
      apply value_digits_of. lia.
    - apply value_digits_of. lia. }
  assert (Hlen : 0 < Z.of_nat (List.length ds)).
  { unfold ds. destruct (Z.abs x <? 10); [simpl List.length; lia|].
    destruct (Printf.digits_of (Z.abs x)) eqn:E; [|simpl List.length; lia].
    exfalso. pose proof (value_digits_of (Z.abs x) ltac:(lia)) as Hv.
    rewrite E in Hv. unfold Printf.digits_of in E.
    destruct (N.to_uint (Z.to_N (Z.abs x))) eqn:Eu; try discriminate.
    pose proof (to_uint_normal (Z.to_N (Z.abs x))) as Hn. rewrite Eu in Hn.
    discriminate. }
  assert (Hsign : Strtod.take_sign
                    ((if x <? 0 then "-"%char else "+"%char) :: ds)
                  = (x <? 0, ds)).
  { destruct (x <? 0); reflexivity. }
  rewrite Hsign.
  pose proof (digit_run_digits ds [] Hds I 0 0) as Hrun.
  rewrite List.app_nil_r in Hrun. rewrite Hrun. fold (value ds). rewrite Hval.
  replace (0 <? 0 + Z.of_nat (List.length ds)) with true
    by (symmetry; apply Z.ltb_lt; lia).
  destruct (Z.ltb_spec x 0); f_equal; lia.
Qed.

Lemma exp_text_stops (ex : option Z) : stops (exp_text ex).
Proof. destruct ex; reflexivity. Qed.

Lemma parse_layout (neg : bool) (c : ascii) (ip fr : list ascii) (ex : option Z) :
  forallb is_digit (c :: ip) = true -> forallb is_digit fr = true ->
  Strtod.parse (string_of_list_ascii
                  (Printf.sign_text neg ++ (c :: ip) ++ point_text fr ++ exp_text ex))
  = Some (reads_as neg (value ((c :: ip) ++ fr))
            (match ex with Some x => x | None => 0 end - Z.of_nat (List.length fr))).
Proof.
  intros Hip Hfr. unfold Strtod.parse.
  rewrite list_ascii_of_string_of_list_ascii.
  assert (Hc : is_digit c = true) by (simpl in Hip; now apply andb_true_iff in Hip).
  change ((c :: ip) ++ point_text fr ++ exp_text ex)
    with (c :: (ip ++ point_text fr ++ exp_text ex)).
  rewrite (take_sign_text neg c _ Hc).
  change (c :: ip ++ point_text fr ++ exp_text ex)
    with ((c :: ip) ++ point_text fr ++ exp_text ex).
  assert (Hstop : stops (point_text fr ++ exp_text ex)).
  { destruct fr; [apply exp_text_stops|reflexivity]. }
  rewrite (digit_run_digits (c :: ip) _ Hip Hstop 0 0).
  assert (Hexp : Strtod.exponent_part (exp_text ex)
                 = Some (match ex with Some x => x | None => 0 end)).
  { destruct ex; [apply exponent_part_text|reflexivity]. }
  assert (Hn : 0 < Z.of_nat (List.length (c :: ip))) by (simpl List.length; lia).
  destruct fr as [|f fr].
  - cbn [point_text app].
    assert (Hm : match exp_text ex with
                 | [] => (value_from 0 (c :: ip), 0, [])
                 | c0 :: r =>
                     if Ascii.eqb c0 "." then Strtod.digit_run (value_from 0 (c :: ip)) 0 r
                     else (value_from 0 (c :: ip), 0, exp_text ex)
                 end = (value_from 0 (c :: ip), 0, exp_text ex)).
    { destruct ex; reflexivity. }
    rewrite Hm, Hexp.
    replace (0 + Z.of_nat (List.length (c :: ip)) + 0 =? 0) with false
      by (symmetry; apply Z.eqb_neq; lia).
    rewrite List.app_nil_r. reflexivity.
  - cbn [point_text app]. change (Ascii.eqb "." ".") with true. cbv iota.
    rewrite (digit_run_digits (f :: fr) _ Hfr (exp_text_stops ex)), Hexp.
    replace (0 + Z.of_nat (List.length (c :: ip))
             + (0 + Z.of_nat (List.length (f :: fr))) =? 0) with false
      by (symmetry; apply Z.eqb_neq; lia).
    replace (0 + Z.of_nat (List.length (f :: fr))) with (Z.of_nat (List.length (f :: fr)))
      by lia.
    replace (value (c :: ip ++ f :: fr))
      with (value_from (value_from 0 (c :: ip)) (f :: fr))
      by (symmetry; exact (value_from_app (c :: ip) (f :: fr) 0)).
    reflexivity.
Qed.

End Reading.

Module Shown.
Import Numeral NumeralFacts.
Local Open Scope Z_scope.
Import Reading.

Lemma reduce_succ (n : nat) :
  forall v e,
    reduce (S n) v e =
    (let '(v', e') := reduce n v e in
     if (e' =? e + Z.of_nat n) && (v' mod 10 =? 0) then (v' / 10, e' + 1)
     else (v', e')) /\
    e <= snd (reduce n v e) <= e + Z.of_nat n.
Proof.
  induction n as [|n IH]; intros v e.
  - cbn [reduce]. rewrite Z.add_0_r, Z.eqb_refl. cbn [andb snd]. split; [reflexivity|lia].
  - destruct (IH (v / 10) (e + 1)) as [IH1 IH2].
    change (reduce (S (S n)) v e)
      with (if v mod 10 =? 0 then reduce (S n) (v / 10) (e + 1) else (v, e)).
    change (reduce (S n) v e)
      with (if v mod 10 =? 0 then reduce n (v / 10) (e + 1) else (v, e)).
    destruct (v mod 10 =? 0) eqn:Hv.
    + rewrite IH1. destruct (reduce n (v / 10) (e + 1)) as [v' e'].
      cbn [snd] in IH2 |- *.
      replace (e' =? e + Z.of_nat (S n)) with (e' =? e + 1 + Z.of_nat n)
        by (f_equal; lia).
      split; [reflexivity|lia].
    + cbn [snd].
      replace (e =? e + Z.of_nat (S n)) with false
        by (symmetry; apply Z.eqb_neq; lia).
      split; [reflexivity|lia].
Qed.

Lemma value_snoc (l : list ascii) (c : ascii) :
  value (l ++ [c]) = 10 * value l + digit c.
Proof. unfold value. rewrite value_from_app. reflexivity. Qed.

Lemma digit_zero (c : ascii) :
  is_digit c = true -> (digit c = 0 <-> Ascii.eqb c "0" = true).
Proof.
  intros Hc. destruct (Ascii.eqb_spec c "0") as [->|Hne].
  - split; reflexivity.
  - split; [|discriminate]. intros H0. exfalso. apply Hne.
    unfold is_digit, digit, Strtod.digit_value in *.
    destruct ((48 <=? Z.of_nat (nat_of_ascii c))
              && (Z.of_nat (nat_of_ascii c) <=? 57)) eqn:E; [|discriminate].
    assert (Hn : nat_of_ascii c = 48%nat) by lia.
    rewrite <- (ascii_nat_embedding c), Hn. reflexivity.
Qed.

Lemma strip_zeros_reduce (f : list ascii) :
  forallb is_digit f = true ->
  forall pre e,
    reduce (List.length f) (value (pre ++ f)) e =
    (value (pre ++ Printf.strip_zeros f),
     e + Z.of_nat (List.length f) - Z.of_nat (List.length (Printf.strip_zeros f))).
Proof.
  induction f as [|c r IH]; intros Hf pre e.
  - cbn [reduce Printf.strip_zeros List.length]. f_equal. lia.
  - simpl in Hf. apply andb_true_iff in Hf as [Hc Hr].
    specialize (IH Hr (pre ++ [c])%list e).
    rewrite <- !app_assoc in IH. cbn [app] in IH.
    cbn [List.length]. rewrite (proj1 (reduce_succ (List.length r) _ e)), IH.
    cbn [Printf.strip_zeros].
    destruct (Printf.strip_zeros r) as [|s0 s'] eqn:Hs.
    + replace (e + Z.of_nat (List.length r) - Z.of_nat (List.length (@nil ascii))
               =? e + Z.of_nat (List.length r)) with true
        by (symmetry; apply Z.eqb_eq; simpl List.length; lia).
      cbn [andb]. rewrite value_snoc.
      pose proof (digit_range c) as Hd. pose proof (digit_zero c Hc) as Hz.
      destruct (Ascii.eqb c "0") eqn:E0.
      * assert (H0 : digit c = 0) by (apply Hz; reflexivity).
        rewrite H0, Z.add_0_r, Z.mul_comm, Z.mod_mul, Z.div_mul by lia.
        rewrite Z.eqb_refl, List.app_nil_r. f_equal. simpl List.length. lia.
      * assert (H0 : digit c <> 0) by (intros H; apply Hz in H; discriminate).
        replace ((10 * value pre + digit c) mod 10) with (digit c).
        -- replace (digit c =? 0) with false by (symmetry; apply Z.eqb_neq; lia).
           rewrite value_snoc. f_equal. simpl List.length. lia.
        -- rewrite Z.add_comm, Z.mul_comm, Z.mod_add by lia.
           symmetry. apply Z.mod_small. lia.
    + replace (e + Z.of_nat (List.length r) - Z.of_nat (List.length (s0 :: s'))
               =? e + Z.of_nat (List.length r)) with false
        by (symmetry; apply Z.eqb_neq; simpl List.length; lia).
      cbn [andb]. f_equal. simpl List.length. lia.
Qed.

Lemma reduce_keeps_value (cap : nat) :
  forall m e m' e',
    reduce cap m e = (m', e') -> e <= e' /\ m' * 10 ^ (e' - e) = m.
Proof.
  induction cap as [|c IH]; intros m e m' e'; cbn [reduce].
  - intros [= <- <-]. rewrite Z.sub_diag. simpl. lia.
  - destruct (Z.eqb_spec (m mod 10) 0) as [H0|H0].
    + intros Hr. destruct (IH _ _ _ _ Hr) as [Hle Hv]. split; [lia|].
      replace (e' - e) with (e' - (e + 1) + 1) by lia.
      rewrite Z.pow_add_r by lia. change (10 ^ 1) with 10.
      pose proof (Z.div_mod m 10 ltac:(lia)). lia.
    + intros [= <- <-]. rewrite Z.sub_diag. simpl. lia.
Qed.

Lemma with_point_text (ip fr : list ascii) :
  Printf.with_point ip fr = (ip ++ point_text fr)%list.
Proof. destruct fr; [now rewrite List.app_nil_r|reflexivity]. Qed.

Lemma value_leading_zeros (k : nat) (l : list ascii) :
  value (repeat "0"%char k ++ l) = value l.
Proof. induction k as [|k IH]; [reflexivity|exact IH]. Qed.

Lemma zeros_digits (k : nat) : forallb is_digit (repeat "0"%char k) = true.
Proof. induction k; simpl; auto. Qed.

(** The text printed for the six digits [d] with exponent [x10], and what
    the reading of it finds. *)
Lemma general_reads (neg : bool) (num den d x10 : Z) :
  Printf.six_digits num den = (d, x10) ->
  100000 <= d < 1000000 ->
  Strtod.parse (string_of_list_ascii (Printf.sign_text neg ++ Printf.general num den))
  = Some (let shown := if (-4 <=? x10) && (x10 <? 6) then Z.to_nat (5 - x10) else 5%nat in
          let '(m, e) := reduce shown d (x10 - 5) in
          reads_as neg m e).
Proof.
  intros Hsix Hd. unfold Printf.general. rewrite Hsix.
  destruct (SixDigits.six_digit_chars d Hd) as (Hlen & Hdig & Hval).
  destruct (Printf.digits_of d) as [|c1 [|c2 [|c3 [|c4 [|c5 [|c6 [|c7 r]]]]]]];
    try discriminate. clear Hlen.
  assert (Hfin : forall (c : ascii) (ip f : list ascii) (ex : option Z) (cap : nat),
             forallb is_digit (c :: ip) = true -> forallb is_digit f = true ->
             value ((c :: ip) ++ f) = d -> List.length f = cap ->
             match ex with Some x => x | None => 0 end - Z.of_nat cap = x10 - 5 ->
             Strtod.parse (string_of_list_ascii
               (Printf.sign_text neg ++
                (Printf.with_point (c :: ip) (Printf.strip_zeros f) ++ exp_text ex)))
             = Some (let '(m, e) := reduce cap d (x10 - 5) in reads_as neg m e)).
  { intros c ip f ex cap Hip Hf Hv Hcap Hex.
    rewrite with_point_text, <- app_assoc.
    rewrite (parse_layout neg c ip (Printf.strip_zeros f) ex Hip
               (PrintfFacts.forallb_strip_zeros is_digit f Hf)).
    rewrite <- Hv, <- Hcap, (strip_zeros_reduce f Hf (c :: ip) (x10 - 5)).
    f_equal. f_equal. lia. }
  destruct ((-4 <=? x10) && (x10 <? 6)) eqn:Hfixed.
  - apply andb_true_iff in Hfixed as [H4 H6].
    apply Z.leb_le in H4. apply Z.ltb_lt in H6.
    destruct (Z.leb_spec 0 x10) as [H0|H0].
    + assert (Hx : x10 = 0 \/ x10 = 1 \/ x10 = 2 \/ x10 = 3 \/ x10 = 4 \/ x10 = 5) by lia.
      simpl in Hdig. repeat rewrite andb_true_iff in Hdig.
      destruct Hdig as (D1 & D2 & D3 & D4 & D5 & D6 & _).
      destruct Hx as [->|[->|[->|[->|[->| ->]]]]];
        match goal with
        | |- context [Z.to_nat (?a + 1)] =>
            let n := eval vm_compute in (Z.to_nat (a + 1)) in
            change (Z.to_nat (a + 1)) with n
        end;
        cbn [firstn skipn];
        match goal with
        | |- context [Printf.with_point (?c :: ?ip) (Printf.strip_zeros ?f)] =>
            rewrite <- (List.app_nil_r (Printf.with_point (c :: ip) (Printf.strip_zeros f)));
            apply (Hfin c ip f None);
            [ cbn [forallb]; rewrite ?D1, ?D2, ?D3, ?D4, ?D5, ?D6; reflexivity
            | cbn [forallb]; rewrite ?D1, ?D2, ?D3, ?D4, ?D5, ?D6; reflexivity
            | exact Hval | reflexivity | reflexivity ]
        end.
    + rewrite <- (List.app_nil_r (Printf.with_point _ _)).
      apply (Hfin "0"%char [] _ None).
      * reflexivity.
      * rewrite forallb_app, zeros_digits, Hdig. reflexivity.
      * change (value (("0"%char :: []) ++ ?l)) with (value l).
        rewrite value_leading_zeros. exact Hval.
      * rewrite length_app, repeat_length. simpl List.length. lia.
      * lia.
  - simpl in Hdig. repeat rewrite andb_true_iff in Hdig.
    destruct Hdig as (D1 & D2 & D3 & D4 & D5 & D6 & _).
    cbn [firstn skipn].
    apply (Hfin c1 [] [c2; c3; c4; c5; c6] (Some x10) 5%nat).
    + cbn [forallb]. rewrite D1. reflexivity.
    + cbn [forallb]. rewrite D2, D3, D4, D5, D6. reflexivity.
    + exact Hval.
    + reflexivity.
    + lia.
Qed.

End Shown.

Module ReadBack.
Import Numeral NumeralFacts.
Local Open Scope Z_scope.

Lemma fraction_bounds (x : float) (s : bool) (num den : Z) :
  fraction x = Some (s, num, den) ->
  0 < num /\ 0 < den /\ den <= num * 10 ^ 400.
Proof.
  unfold fraction. destruct (Prim2SF x) as [| | |s' m e] eqn:Hx; try discriminate.
  pose proof (SixDigits.finite_fraction x s' m e Hx) as H. cbv zeta in H.
  destruct (0 <=? e); intros [= <- <- <-]; exact H.
Qed.

Lemma double_of_fraction (x : float) (s : bool) (num den : Z) :
  fraction x = Some (s, num, den) ->
  Printf.double x =
  string_of_list_ascii (Printf.sign_text s ++ Printf.general num den).
Proof.
  unfold fraction, Printf.double, Printf.double_chars.
  destruct (Prim2SF x) as [| | |s' m e]; try discriminate.
  destruct (0 <=? e); intros [= <- <- <-]; reflexivity.
Qed.

Lemma round_half_even_error (a b : Z) :
  0 < b -> 2 * Z.abs (a - Printf.round_half_even a b * b) <= b.
Proof.
  intros Hb. unfold Printf.round_half_even.
  pose proof (Z.div_mod a b ltac:(lia)).
  pose proof (Z.mod_pos_bound a b Hb).
  destruct (Z.ltb_spec b (2 * (a mod b))); [lia|].
  destruct (Z.eqb_spec (2 * (a mod b)) b); [destruct (Z.even (a / b))|]; lia.
Qed.

Lemma six_digits_rounding (num den : Z) :
  0 < num -> 0 < den -> den <= num * 10 ^ 400 ->
  six_digit_rounding num den (fst (Printf.six_digits num den))
    (snd (Printf.six_digits num den)).
Proof.
  intros Hnum Hden Hb. split; [now apply SixDigits.six_digits_range|].
  unfold Printf.six_digits. cbv zeta.
  set (x := Printf.decimal_exponent num den).
  set (d0 := if 0 <=? 5 - x then Printf.round_half_even (num * 10 ^ (5 - x)) den
             else Printf.round_half_even num (den * 10 ^ (- (5 - x)))).
  assert (H0 : 2 * Z.abs (num * 10 ^ Z.max 0 (5 - x) - d0 * den * 10 ^ Z.max 0 (x - 5))
               <= den * 10 ^ Z.max 0 (x - 5)).
  { unfold d0. destruct (Z.leb_spec 0 (5 - x)) as [Hk|Hk].
    - rewrite (Z.max_r 0 (5 - x)), (Z.max_l 0 (x - 5)), Z.pow_0_r, !Z.mul_1_r by lia.
      apply round_half_even_error. lia.
    - rewrite (Z.max_l 0 (5 - x)), (Z.max_r 0 (x - 5)), Z.pow_0_r, !Z.mul_1_r by lia.
      replace (- (5 - x)) with (x - 5) by lia.
      assert (Hp : 0 < 10 ^ (x - 5)) by (apply Z.pow_pos_nonneg; lia).
      pose proof (round_half_even_error num (den * 10 ^ (x - 5)) ltac:(nia)) as He.
      rewrite <- Z.mul_assoc. exact He. }
  destruct (Z.eqb_spec d0 1000000) as [E|E]; cbn [fst snd]; [|exact H0].
  rewrite E in H0. destruct (Z.leb_spec 0 (5 - (x + 1))) as [Hk|Hk].
  - rewrite (Z.max_r 0 (5 - x)), (Z.max_l 0 (x - 5)), Z.pow_0_r, !Z.mul_1_r in H0 by lia.
    rewrite (Z.max_r 0 (5 - (x + 1))), (Z.max_l 0 (x + 1 - 5)), Z.pow_0_r, !Z.mul_1_r
      by lia.
    replace (5 - x) with (5 - (x + 1) + 1) in H0 by lia.
    rewrite Z.pow_add_r in H0 by lia. change (10 ^ 1) with 10 in H0.
    assert (Hp : 0 < 10 ^ (5 - (x + 1))) by (apply Z.pow_pos_nonneg; lia).
    lia.
  - rewrite (Z.max_l 0 (5 - x)), (Z.max_r 0 (x - 5)), Z.pow_0_r, !Z.mul_1_r in H0 by lia.
    rewrite (Z.max_l 0 (5 - (x + 1))), (Z.max_r 0 (x + 1 - 5)), Z.pow_0_r, !Z.mul_1_r
      by lia.
    replace (x + 1 - 5) with (x - 5 + 1) by lia.
    rewrite Z.pow_add_r by lia. change (10 ^ 1) with 10.
    assert (Hp : 0 < 10 ^ (x - 5)) by (apply Z.pow_pos_nonneg; lia).
    nia.
Qed.

Lemma parse_of_fraction (x : float) (s : bool) (num den : Z) :
  fraction x = Some (s, num, den) ->
  Strtod.parse (Printf.double x) = Some (six_digit_double x).
Proof.
  intros Hf. destruct (fraction_bounds x s num den Hf) as (Hnum & Hden & Hb).
  rewrite (double_of_fraction x s num den Hf). unfold six_digit_double. rewrite Hf.
  pose proof (SixDigits.six_digits_range num den Hnum Hden Hb) as Hd.
  destruct (Printf.six_digits num den) as [d x10] eqn:Hsix. cbn [fst] in Hd.
  exact (Shown.general_reads s num den d x10 Hsix Hd).
Qed.

Lemma parse_of_zero (x : float) (s : bool) :
  Prim2SF x = S754_zero s -> Strtod.parse (Printf.double x) = Some x.
Proof.
  intros Hx. unfold Printf.double, Printf.double_chars. rewrite Hx.
  rewrite <- (SF2Prim_Prim2SF x), Hx. destruct s; reflexivity.
Qed.

Lemma six_digit_double_zero (x : float) (s : bool) :
  Prim2SF x = S754_zero s -> six_digit_double x = x.
Proof. intros Hx. unfold six_digit_double, fraction. now rewrite Hx. Qed.

(** Reading the text printed for a finite double gives the double of its
    six digits. *)
Lemma parse_double (x : float) :
  finite x = true -> Strtod.parse (Printf.double x) = Some (six_digit_double x).
Proof.
  unfold finite. destruct (Prim2SF x) as [s|s| |s m e] eqn:Hx; try discriminate; intros _.
  - rewrite (six_digit_double_zero x s Hx). exact (parse_of_zero x s Hx).
  - apply (parse_of_fraction x s
             (fst (snd (if 0 <=? e then (s, (Zpos m * 2 ^ e, 1)) else (s, (Zpos m, 2 ^ (- e))))))
             (snd (snd (if 0 <=? e then (s, (Zpos m * 2 ^ e, 1)) else (s, (Zpos m, 2 ^ (- e))))))).
    unfold fraction. rewrite Hx. destruct (0 <=? e); reflexivity.
Qed.

(** The fields of finite samples, parsed. *)
Lemma parse_fields (v : list float) :
  Forall (fun x => finite x = true) v ->
  map Strtod.parse (map Printf.double v) = map (fun x => Some (six_digit_double x)) v.
Proof.
  induction 1 as [|x v Hx _ IH]; [reflexivity|].
  cbn [map]. now rewrite (parse_double x Hx), IH.
Qed.

Lemma same_samples (v : list float) :
  map (fun x => Some (six_digit_double x)) v = map Some v <->
  Forall (fun x => six_digit_double x = x) v.
Proof.
  induction v as [|x v IH]; cbn [map].
  - split; [constructor|reflexivity].
  - split.
    + intros H. injection H as Hx Hv. constructor; [exact Hx|now apply IH].
    + intros H. inversion H as [|? ? Hx Hv]; subst.
      rewrite Hx. f_equal. now apply IH.
Qed.

(** The decimal that [six_digit_double] converts. *)
Lemma six_digit_double_decimal (x : float) (s : bool) (num den : Z) :
  fraction x = Some (s, num, den) ->
  exists d x10 m e : Z,
    Printf.six_digits num den = (d, x10) /\
    six_digit_rounding num den d x10 /\
    x10 - 5 <= e /\ m * 10 ^ (e - (x10 - 5)) = d /\
    six_digit_double x = reads_as s m e.
Proof.
  intros Hf. destruct (fraction_bounds x s num den Hf) as (Hnum & Hden & Hb).
  pose proof (six_digits_rounding num den Hnum Hden Hb) as Hr.
  unfold six_digit_double. rewrite Hf.
  destruct (Printf.six_digits num den) as [d x10]. cbn [fst snd] in Hr.
  set (shown := if (-4 <=? x10) && (x10 <? 6) then Z.to_nat (5 - x10) else 5%nat).
  destruct (reduce shown d (x10 - 5)) as [m e] eqn:Hred.
  destruct (Shown.reduce_keeps_value shown d (x10 - 5) m e Hred) as [Hle Hval].
  exists d, x10, m, e. repeat split; try assumption; apply Hr.
Qed.

End ReadBack.

(** ** Counts and their casts

    A count below [2 ^ 53] is cast without rounding, and the conversion
    of a whole number gives the same double as its cast. *)

Module Exact.
Import Numeral.
Local Open Scope Z_scope.

Lemma iter_pos_iter {A : Type} (f : A -> A) (n : positive) :
  forall x, iter_pos f n x = Pos.iter f x n.
Proof.
  induction n as [n IH|n IH|]; intros x; cbn [iter_pos Pos.iter].
  - now rewrite !IH, <- !Pos.iter_swap.
  - now rewrite !IH.
  - reflexivity.
Qed.

Lemma shifted_value (p k : positive) :
  Zpos (Pos.iter xO p k) = Zpos p * 2 ^ Zpos k.
Proof.
  induction k as [|k IH] using Pos.peano_ind.
  - cbn [Pos.iter]. lia.
  - rewrite Pos.iter_succ. change (Zpos (Pos.iter xO p k)~0) with (2 * Zpos (Pos.iter xO p k)).
    rewrite IH, Pos2Z.inj_succ, Z.pow_succ_r by lia. lia.
Qed.

Lemma shifted_digits (p k : positive) :
  Zpos (digits2_pos (Pos.iter xO p k)) = Zpos (digits2_pos p) + Zpos k.
Proof.
  induction k as [|k IH] using Pos.peano_ind.
  - cbn [Pos.iter digits2_pos]. lia.
  - rewrite Pos.iter_succ. cbn [digits2_pos]. rewrite Pos2Z.inj_succ, IH. lia.
Qed.

Lemma shr_shifted (p k : positive) :
  iter_pos shr_1 k {| shr_m := Zpos (Pos.iter xO p k); shr_r := false; shr_s := false |}
  = {| shr_m := Zpos p; shr_r := false; shr_s := false |}.
Proof.
  rewrite iter_pos_iter.
  induction k as [|k IH] using Pos.peano_ind.
  - reflexivity.
  - rewrite Pos.iter_succ_r, Pos.iter_succ. exact IH.
Qed.

Lemma digits_bounds (p : positive) :
  2 ^ (Zpos (digits2_pos p) - 1) <= Zpos p < 2 ^ Zpos (digits2_pos p).
Proof.
  induction p as [p IH|p IH|]; cbn [digits2_pos].
  - rewrite Pos2Z.inj_succ, Pos2Z.inj_xI.
    replace (Z.succ (Zpos (digits2_pos p)) - 1) with (Zpos (digits2_pos p)) by lia.
    rewrite Z.pow_succ_r by lia.
    assert (E : 2 ^ Zpos (digits2_pos p) = 2 * 2 ^ (Zpos (digits2_pos p) - 1))
      by (rewrite <- Z.pow_succ_r by lia; f_equal; lia).
    lia.
  - rewrite Pos2Z.inj_succ. change (Zpos p~0) with (2 * Zpos p).
    replace (Z.succ (Zpos (digits2_pos p)) - 1) with (Zpos (digits2_pos p)) by lia.
    rewrite Z.pow_succ_r by lia.
    assert (E : 2 ^ Zpos (digits2_pos p) = 2 * 2 ^ (Zpos (digits2_pos p) - 1))
      by (rewrite <- Z.pow_succ_r by lia; f_equal; lia).
    lia.
  - simpl. lia.
Qed.

Lemma digits_log2 (p : positive) : Zpos (digits2_pos p) = Z.log2 (Zpos p) + 1.
Proof.
  pose proof (digits_bounds p) as [Hlo Hhi].
  assert (E : Z.log2 (Zpos p) = Zpos (digits2_pos p) - 1); [|lia].
  apply Z.log2_unique; [lia|].
  replace (Z.succ (Zpos (digits2_pos p) - 1)) with (Zpos (digits2_pos p)) by lia.
  split; assumption.
Qed.

(** A mantissa of 53 bits with an exponent in range is a double as it is. *)
Lemma round_canonical (s : bool) (m : positive) (e : Z) :
  Zpos (digits2_pos m) = 53 -> -1074 <= e <= 971 ->
  binary_round_aux prec emax s (Zpos m) e loc_Exact = S754_finite s m e.
Proof.
  intros Hd He. unfold binary_round_aux, shr_fexp.
  cbn [Zdigits2 shr_record_of_loc]. rewrite Hd.
  assert (Hf : fexp prec emax (53 + e) - e = 0).
  { unfold fexp, emin, prec, emax. lia. }
  rewrite Hf. cbn [shr shr_m loc_of_shr_record round_nearest_even Zdigits2
                   shr_record_of_loc].
  rewrite Hd, Hf. cbn [shr shr_m].
  replace (e <=? emax - prec) with true
    by (symmetry; apply Z.leb_le; unfold emax, prec; lia).
  reflexivity.
Qed.

(** Fifteen more bits, all zero, are rounded away without a change. *)
Lemma round_shifted (s : bool) (m k : positive) (e : Z) :
  Zpos (digits2_pos m) = 53 -> -1074 <= e <= 971 ->
  binary_round_aux prec emax s (Zpos (Pos.iter xO m k)) (e - Zpos k) loc_Exact
  = S754_finite s m e.
Proof.
  intros Hd He. unfold binary_round_aux, shr_fexp.
  cbn [Zdigits2 shr_record_of_loc]. rewrite shifted_digits, Hd.
  assert (Hf : fexp prec emax (53 + Zpos k + (e - Zpos k)) - (e - Zpos k) = Zpos k).
  { unfold fexp, emin, prec, emax. lia. }
  rewrite Hf. cbn [shr]. rewrite shr_shifted.
  cbn [shr_m loc_of_shr_record round_nearest_even Zdigits2 shr_record_of_loc].
  rewrite Hd.
  assert (Hf' : fexp prec emax (53 + (e - Zpos k + Zpos k)) - (e - Zpos k + Zpos k) = 0).
  { unfold fexp, emin, prec, emax. lia. }
  rewrite Hf'. cbn [shr shr_m].
  replace (e - Zpos k + Zpos k <=? emax - prec) with true
    by (symmetry; apply Z.leb_le; unfold emax, prec; lia).
  f_equal. lia.
Qed.

Lemma mantissa_value (p : positive) :
  Zpos p < 2 ^ 53 ->
  Zpos (digits2_pos (mantissa p)) = 53 /\ -52 <= exponent p <= 0 /\
  Zpos (mantissa p) = Zpos p * 2 ^ (- exponent p).
Proof.
  intros Hp. pose proof (digits_bounds p) as [Hlo Hhi].
  assert (Hd : Zpos (digits2_pos p) <= 53).
  { destruct (Z.le_gt_cases (Zpos (digits2_pos p)) 53) as [|Hgt]; [assumption|].
    assert (2 ^ 53 <= 2 ^ (Zpos (digits2_pos p) - 1)) by (apply Z.pow_le_mono_r; lia).
    lia. }
  unfold mantissa, exponent.
  destruct (53 - Zpos (digits2_pos p)) as [|d|d] eqn:E; try lia.
  - replace (- (Zpos (digits2_pos p) - 53)) with 0 by lia.
    rewrite Z.pow_0_r. lia.
  - rewrite shifted_digits, shifted_value.
    replace (- (Zpos (digits2_pos p) - 53)) with (Zpos d) by lia. lia.
Qed.

Lemma binary_normalize_count (p : positive) :
  Zpos p < 2 ^ 53 ->
  binary_normalize prec emax (Zpos p) 0 false
  = S754_finite false (mantissa p) (exponent p).
Proof.
  intros Hp. destruct (mantissa_value p Hp) as (Hd & He & Hv).
  cbn [binary_normalize]. unfold binary_round, shl_align.
  assert (Hf : fexp prec emax (Zpos (digits2_pos p) + 0) = exponent p).
  { unfold fexp, emin, prec, emax, exponent in *. lia. }
  rewrite Hf. unfold mantissa, exponent in *.
  replace (Zpos (digits2_pos p) - 53 - 0) with (- (53 - Zpos (digits2_pos p))) by lia.
  destruct (53 - Zpos (digits2_pos p)) as [|d|d] eqn:E; try lia; cbn [Z.opp].
  - replace (Zpos (digits2_pos p) - 53) with 0 in * by lia.
    apply round_canonical; [exact Hd|lia].
  - apply round_canonical; [exact Hd|lia].
Qed.

Lemma double_of_count_exact (n : Z) :
  0 < n < 2 ^ 53 ->
  exists (m : positive) (e : Z),
    Prim2SF (double_of_count n) = S754_finite false m e /\
    -52 <= e <= 0 /\ Zpos m = n * 2 ^ (- e).
Proof.
  intros [H0 Hn]. destruct n as [|p|p]; try lia.
  destruct (mantissa_value p Hn) as (Hd & He & Hv).
  exists (mantissa p), (exponent p). split; [|split; assumption].
  unfold double_of_count. rewrite (binary_normalize_count p Hn).
  apply Prim2SF_SF2Prim. cbn [valid_binary]. unfold bounded, canonical_mantissa.
  rewrite Hd. apply andb_true_iff. split.
  - apply Z.eqb_eq. unfold fexp, emin, prec, emax. lia.
  - apply Z.leb_le. unfold prec, emax. lia.
Qed.

Lemma double_of_count_inj (a n : Z) :
  0 < a < 2 ^ 53 -> 0 < n < 2 ^ 53 ->
  double_of_count a = double_of_count n -> a = n.
Proof.
  intros Ha Hn E.
  destruct (double_of_count_exact a Ha) as (ma & ea & Pa & _ & Va).
  destruct (double_of_count_exact n Hn) as (mn & en & Pn & Hen & Vn).
  rewrite E, Pn in Pa. injection Pa as Hm He. subst.
  assert (0 < 2 ^ (- ea)) by (apply Z.pow_pos_nonneg; lia).
  rewrite Va in Vn. nia.
Qed.

(** The conversion of a whole number below [2 ^ 53] is its cast. *)
Lemma nearest_double_count (n : Z) :
  0 < n < 2 ^ 53 -> Strtod.nearest_double false n 1 = double_of_count n.
Proof.
  intros [H0 Hn]. destruct n as [|p|p]; try lia.
  destruct (mantissa_value p Hn) as (Hd & He & Hv).
  unfold Strtod.nearest_double, double_of_count. cbv zeta.
  rewrite (binary_normalize_count p Hn). f_equal.
  rewrite Z.div_1_r, Z.mod_1_r. cbn [Z.eqb]. rewrite Z.add_0_r.
  change (Z.log2 1) with 0.
  pose proof (digits_log2 p) as Hl.
  assert (Hs : Z.max 0 (66 + 0 - Z.log2 (Zpos p)) = 14 - exponent p).
  { unfold exponent in *. lia. }
  rewrite Hs.
  assert (Hm : 2 * (Zpos p * 2 ^ (14 - exponent p))
               = Zpos (Pos.iter xO (mantissa p) 15)).
  { rewrite shifted_value, Hv.
    replace (14 - exponent p) with (- exponent p + 14) by lia.
    rewrite Z.pow_add_r by lia. change (2 ^ Zpos 15) with (2 * 2 ^ 14). lia. }
  rewrite Hm. cbn [binary_normalize]. unfold binary_round, shl_align.
  rewrite shifted_digits, Hd.
  replace (- (14 - exponent p) - 1) with (exponent p - 15) by lia.
  assert (Hf : fexp prec emax (53 + 15 + (exponent p - 15)) - (exponent p - 15) = 15).
  { unfold fexp, emin, prec, emax. lia. }
  rewrite Hf. apply round_shifted; [exact Hd|lia].
Qed.

End Exact.

(** ** Counts of six digits

    What the six digits of a count are, and which counts are read back
    as themselves. *)

Module Counts.
Import Numeral NumeralFacts.
Local Open Scope Z_scope.

Lemma round_half_even_scale (a b c : Z) :
  0 < b -> 0 < c ->
  Printf.round_half_even (a * c) (b * c) = Printf.round_half_even a b.
Proof.
  intros Hb Hc. unfold Printf.round_half_even.
  rewrite Z.div_mul_cancel_r, Z.mul_mod_distr_r by lia.
  pose proof (Z.mod_pos_bound a b Hb) as Hr.
  replace (b * c <? 2 * (a mod b * c)) with (b <? 2 * (a mod b)).
  - replace (2 * (a mod b * c) =? b * c) with (2 * (a mod b) =? b); [reflexivity|].
    destruct (Z.eqb_spec (2 * (a mod b)) b) as [E|E];
      destruct (Z.eqb_spec (2 * (a mod b * c)) (b * c)) as [E'|E'];
      try reflexivity; exfalso; nia.
  - destruct (Z.ltb_spec b (2 * (a mod b))) as [E|E];
      destruct (Z.ltb_spec (b * c) (2 * (a mod b * c))) as [E'|E'];
      try reflexivity; exfalso; nia.
Qed.

Lemma six_digits_scale (n c : Z) :
  0 < n -> 0 < c -> Printf.six_digits (n * c) c = Printf.six_digits n 1.
Proof.
  intros Hn Hc. unfold Printf.six_digits, Printf.decimal_exponent.
  replace (c <=? n * c) with true by (symmetry; apply Z.leb_le; nia).
  replace (1 <=? n) with true by (symmetry; apply Z.leb_le; lia).
  rewrite Z.div_mul, Z.div_1_r by lia. cbv zeta.
  set (x := Z.of_nat (List.length (Printf.digits_of n)) - 1).
  destruct (Z.leb_spec 0 (5 - x)) as [Hk|Hk].
  - replace (Printf.round_half_even (n * c * 10 ^ (5 - x)) c)
      with (Printf.round_half_even (n * 10 ^ (5 - x)) 1); [reflexivity|].
    rewrite <- (round_half_even_scale (n * 10 ^ (5 - x)) 1 c) by lia.
    f_equal; lia.
  - assert (0 < 10 ^ (- (5 - x))) by (apply Z.pow_pos_nonneg; lia).
    replace (Printf.round_half_even (n * c) (c * 10 ^ (- (5 - x))))
      with (Printf.round_half_even n (1 * 10 ^ (- (5 - x)))); [reflexivity|].
    rewrite <- (round_half_even_scale n (1 * 10 ^ (- (5 - x))) c) by lia.
    f_equal. lia.
Qed.

(** What [Printf.six_digits] computes: the rounding [d0] at the decimal
    exponent of the number, which is carried to the next exponent when it
    reaches seven digits. *)
Lemma six_digits_spec (num den : Z) :
  0 < num -> 0 < den -> den <= num * 10 ^ 400 ->
  exists d0 : Z,
    100000 <= d0 <= 1000000 /\
    2 * Z.abs (num * 10 ^ Z.max 0 (5 - Printf.decimal_exponent num den)
               - d0 * den * 10 ^ Z.max 0 (Printf.decimal_exponent num den - 5))
    <= den * 10 ^ Z.max 0 (Printf.decimal_exponent num den - 5) /\
    Printf.six_digits num den =
    (if d0 =? 1000000 then (100000, Printf.decimal_exponent num den + 1)
     else (d0, Printf.decimal_exponent num den)).
Proof.
  intros Hnum Hden Hb.
  pose proof (SixDigits.six_digits_range num den Hnum Hden Hb) as Hrange.
  unfold Printf.six_digits in *. cbv zeta in *.
  set (x := Printf.decimal_exponent num den) in *.
  set (d0 := if 0 <=? 5 - x then Printf.round_half_even (num * 10 ^ (5 - x)) den
             else Printf.round_half_even num (den * 10 ^ (- (5 - x)))) in *.
  exists d0. split; [|split; [|reflexivity]].
  - destruct (Z.eqb_spec d0 1000000); cbn [fst] in Hrange; lia.
  - unfold d0. destruct (Z.leb_spec 0 (5 - x)) as [Hk|Hk].
    + rewrite (Z.max_r 0 (5 - x)), (Z.max_l 0 (x - 5)), Z.pow_0_r, !Z.mul_1_r by lia.
      apply ReadBack.round_half_even_error. lia.
    + rewrite (Z.max_l 0 (5 - x)), (Z.max_r 0 (x - 5)), Z.pow_0_r, !Z.mul_1_r by lia.
      replace (- (5 - x)) with (x - 5) by lia.
      assert (Hp : 0 < 10 ^ (x - 5)) by (apply Z.pow_pos_nonneg; lia).
      pose proof (ReadBack.round_half_even_error num (den * 10 ^ (x - 5)) ltac:(nia)) as He.
      rewrite <- Z.mul_assoc. exact He.
Qed.

(** The decimal exponent of a count. *)
Lemma count_exponent (n : Z) :
  0 < n ->
  0 <= Printf.decimal_exponent n 1 /\
  10 ^ Printf.decimal_exponent n 1 <= n < 10 * 10 ^ Printf.decimal_exponent n 1.
Proof.
  intros Hn.
  assert (Hb : 1 <= n * 10 ^ 400).
  { assert (0 < 10 ^ 400) by (apply Z.pow_pos_nonneg; lia). nia. }
  pose proof (decimal_exponent_spec n 1 Hn ltac:(lia) Hb) as Hx. cbv zeta in Hx.
  set (x := Printf.decimal_exponent n 1) in *.
  destruct (Z.leb_spec 0 x) as [H0|H0].
  - rewrite (Z.max_r 0 x), (Z.max_l 0 (- x)), Z.pow_0_r in Hx by lia. lia.
  - exfalso. rewrite (Z.max_l 0 x), (Z.max_r 0 (- x)), Z.pow_0_r in Hx by lia.
    assert (10 ^ 1 <= 10 ^ (- x)) by (apply Z.pow_le_mono_r; lia).
    change (10 ^ 1) with 10 in *. nia.
Qed.

Lemma powers_of_ten (k j : Z) :
  0 <= k -> 0 <= j ->
  (exists r, 0 < r /\ 10 ^ k = r * 10 ^ j) \/
  (exists r, 10 <= r /\ 10 ^ j = r * 10 ^ k).
Proof.
  intros Hk Hj. destruct (Z.le_gt_cases j k) as [H|H].
  - left. exists (10 ^ (k - j)). split; [apply Z.pow_pos_nonneg; lia|].
    rewrite <- Z.pow_add_r by lia. f_equal. lia.
  - right. exists (10 ^ (j - k)). split.
    + assert (10 ^ 1 <= 10 ^ (j - k)) by (apply Z.pow_le_mono_r; lia).
      change (10 ^ 1) with 10 in *. lia.
    + rewrite <- Z.pow_add_r by lia. f_equal. lia.
Qed.

Lemma six_digits_count (n : Z) : 0 < n -> count_digits n (Printf.six_digits n 1).
Proof.
  intros Hn.
  assert (Hb : 1 <= n * 10 ^ 400).
  { assert (0 < 10 ^ 400) by (apply Z.pow_pos_nonneg; lia). nia. }
  destruct (six_digits_spec n 1 Hn ltac:(lia) Hb) as (d0 & Hd0 & Herr & ->).
  destruct (count_exponent n Hn) as [Hx0 Hx].
  set (x := Printf.decimal_exponent n 1) in *.
  rewrite !Z.mul_1_r in Herr.
  destruct (Z.le_gt_cases x 5) as [H5|H5].
  - rewrite (Z.max_r 0 (5 - x)), (Z.max_l 0 (x - 5)), Z.pow_0_r in Herr by lia.
    assert (E : d0 = n * 10 ^ (5 - x)) by lia.
    assert (Hp : 10 ^ x * 10 ^ (5 - x) = 100000).
    { rewrite <- Z.pow_add_r by lia. now replace (x + (5 - x)) with 5 by lia. }
    assert (0 < 10 ^ (5 - x)) by (apply Z.pow_pos_nonneg; lia).
    replace (d0 =? 1000000) with false by (symmetry; apply Z.eqb_neq; nia).
    rewrite E. apply short_count; lia.
  - rewrite (Z.max_l 0 (5 - x)), (Z.max_r 0 (x - 5)), Z.pow_0_r, Z.mul_1_r in Herr by lia.
    assert (Hp : 10 ^ x = 100000 * 10 ^ (x - 5)).
    { replace x with (5 + (x - 5)) at 1 by lia. now rewrite Z.pow_add_r by lia. }
    destruct (Z.eqb_spec d0 1000000) as [E|E].
    + rewrite E in Herr. apply carried_count; lia.
    + apply long_count; lia.
Qed.

Lemma reduce_power (k : nat) :
  forall n e, reduce k (n * 10 ^ Z.of_nat k) e = (n, e + Z.of_nat k).
Proof.
  induction k as [|k IH]; intros n e.
  - cbn [reduce]. change (Z.of_nat 0) with 0. rewrite Z.pow_0_r. f_equal; lia.
  - cbn [reduce]. rewrite Nat2Z.inj_succ, Z.pow_succ_r by lia.
    replace (n * (10 * 10 ^ Z.of_nat k)) with (n * 10 ^ Z.of_nat k * 10) by lia.
    rewrite Z.mod_mul, Z.div_mul by lia. cbn [Z.eqb]. rewrite IH. f_equal. lia.
Qed.

(** The count that the six digits of [n] write. *)
Lemma six_digit_count_value (n : Z) :
  0 < n ->
  forall d x10, Printf.six_digits n 1 = (d, x10) ->
    (x10 <= 5 -> d = n * 10 ^ (5 - x10) /\ 0 <= x10 /\ six_digit_count n = n) /\
    (5 < x10 -> six_digit_count n = d * 10 ^ (x10 - 5)).
Proof.
  intros Hn d x10 Hsix. pose proof (six_digits_count n Hn) as Hc.
  unfold six_digit_count. rewrite Hsix in *.
  split; intros Hx.
  - inversion Hc as [x Hx5 Hnx|x d' Hx5 Hnx Hd Herr|x Hx5 Hnx Herr]; subst; try lia.
    split; [reflexivity|]. split; [lia|].
    assert (0 < 10 ^ (5 - x10)) by (apply Z.pow_pos_nonneg; lia).
    destruct (Z.leb_spec 5 x10).
    + replace x10 with 5 by lia. simpl. lia.
    + rewrite Z.div_mul by lia. reflexivity.
  - replace (5 <=? x10) with true by (symmetry; apply Z.leb_le; lia). reflexivity.
Qed.

Lemma six_digit_count_spec (n : Z) :
  0 < n ->
  0 < six_digit_count n /\ six_figures (six_digit_count n) /\
  200000 * Z.abs (six_digit_count n - n) <= n /\
  (six_digit_count n = n <-> six_figures n).
Proof.
  intros Hn. pose proof (six_digits_count n Hn) as Hc.
  destruct (Printf.six_digits n 1) as [d0 x0] eqn:Hsix.
  destruct (six_digit_count_value n Hn d0 x0 Hsix) as [Hshort Hlong].
  inversion Hc as [x Hx5 Hnx|x d' Hx5 Hnx Hd Herr|x Hx5 Hnx Herr]; subst.
  - destruct (Hshort ltac:(lia)) as (_ & _ & ->).
    assert (Hsf : six_figures n).
    { exists n, 0. split; [lia|]. rewrite Z.pow_0_r. split; [|lia].
      assert (10 ^ x0 <= 10 ^ 5) by (apply Z.pow_le_mono_r; lia).
      change (10 ^ 5) with 100000 in *. lia. }
    split; [lia|]. split; [exact Hsf|]. split; [lia|]. split; auto.
  - rewrite (Hlong Hx5).
    assert (Hp : 0 < 10 ^ (x0 - 5)) by (apply Z.pow_pos_nonneg; lia).
    set (P := 10 ^ (x0 - 5)) in *.
    split; [nia|]. split; [exists d0, (x0 - 5); split; [lia|split; [lia|reflexivity]]|].
    split; [lia|]. split.
    + intros <-. exists d0, (x0 - 5). split; [lia|]. split; [lia|reflexivity].
    + intros (d' & k & Hk & Hd' & ->).
      destruct (powers_of_ten k (x0 - 5) Hk ltac:(lia)) as [(r & Hr & E)|(r & Hr & E)].
      * rewrite E in *. fold P in Herr, Hnx |- *.
        replace (d' * (r * P)) with (d' * r * P) in * by ring.
        assert (Herr' : 2 * (Z.abs (d' * r - d0) * P) <= P).
        { rewrite <- (Z.abs_eq P) at 1 by lia. rewrite <- Z.abs_mul.
          replace ((d' * r - d0) * P) with (d' * r * P - d0 * P) by ring. exact Herr. }
        assert (Hq : d' * r = d0) by nia.
        now rewrite Hq.
      * exfalso. fold P in E. assert (Hq : 0 < 10 ^ k) by (apply Z.pow_pos_nonneg; lia).
        rewrite E in *. set (Q := 10 ^ k) in *. nia.
  - rewrite (Hlong ltac:(lia)).
    assert (Hp : 0 < 10 ^ (x - 5)) by (apply Z.pow_pos_nonneg; lia).
    assert (E10 : 10 ^ (x + 1 - 5) = 10 * 10 ^ (x - 5)).
    { replace (x + 1 - 5) with (Z.succ (x - 5)) by lia. now rewrite Z.pow_succ_r by lia. }
    rewrite E10. set (P := 10 ^ (x - 5)) in *.
    split; [lia|]. split.
    { exists 100000, (x + 1 - 5). split; [lia|]. split; [lia|]. rewrite E10. reflexivity. }
    split; [lia|]. split; [lia|].
    intros (d' & k & Hk & Hd' & ->). exfalso.
    destruct (powers_of_ten k (x - 5) Hk ltac:(lia)) as [(r & Hr & E)|(r & Hr & E)].
    + rewrite E in *. fold P in Herr, Hnx.
      replace (d' * (r * P)) with (d' * r * P) in * by ring.
      assert (Hq : d' * r < 1000000) by nia.
      assert (Herr' : 2 * ((1000000 - d' * r) * P) <= P) by lia.
      nia.
    + fold P in E. assert (Hq : 0 < 10 ^ k) by (apply Z.pow_pos_nonneg; lia).
      rewrite E in *. set (Q := 10 ^ k) in *.
      assert (Herr' : 2 * (1000000 * (r * Q)) - 2 * (d' * Q) <= r * Q) by lia.
      nia.
Qed.

Lemma fraction_of_count (n : Z) :
  0 < n < 2 ^ 53 ->
  exists num den : Z,
    fraction (double_of_count n) = Some (false, num, den) /\
    Printf.six_digits num den = Printf.six_digits n 1.
Proof.
  intros Hn. destruct (Exact.double_of_count_exact n Hn) as (m & e & Hx & He & Hv).
  unfold fraction. rewrite Hx. destruct (Z.leb_spec 0 e) as [H0|H0].
  - exists (Zpos m * 2 ^ e), 1. split; [reflexivity|].
    replace e with 0 in * by lia. rewrite Hv. simpl (2 ^ 0). simpl (- 0).
    rewrite Z.pow_0_r, !Z.mul_1_r. reflexivity.
  - exists (Zpos m), (2 ^ (- e)). split; [reflexivity|].
    rewrite Hv. apply six_digits_scale; [lia|apply Z.pow_pos_nonneg; lia].
Qed.

(** The six digits of the cast of a count are read back as the cast of the
    count rounded to six digits. *)
Lemma six_digit_double_count (n : Z) :
  0 < n < 10 ^ 15 ->
  six_digit_double (double_of_count n) = double_of_count (six_digit_count n).
Proof.
  intros Hn.
  assert (H15 : 10 ^ 15 = 1000000000000000) by reflexivity.
  assert (H53 : 2 ^ 53 = 9007199254740992) by reflexivity.
  destruct (fraction_of_count n ltac:(lia)) as (num & den & Hf & Hsix).
  destruct (six_digit_count_spec n ltac:(lia)) as (Ha0 & _ & Herr & _).
  unfold six_digit_double. rewrite Hf, Hsix.
  destruct (Printf.six_digits n 1) as [d x10] eqn:Hd.
  destruct (six_digit_count_value n ltac:(lia) d x10 Hd) as [Hshort Hlong].
  destruct (Z.le_gt_cases x10 5) as [Hx|Hx].
  - destruct (Hshort Hx) as (-> & Hx0 & Ha).
    replace ((-4 <=? x10) && (x10 <? 6)) with true
      by (symmetry; apply andb_true_iff; split; [apply Z.leb_le|apply Z.ltb_lt]; lia).
    pose proof (reduce_power (Z.to_nat (5 - x10)) n (x10 - 5)) as Hred.
    rewrite Z2Nat.id in Hred by lia. rewrite Hred, Ha.
    replace (x10 - 5 + (5 - x10)) with 0 by lia.
    unfold reads_as. cbn [Z.leb Z.compare]. rewrite Z.pow_0_r, Z.mul_1_r.
    apply Exact.nearest_double_count. lia.
  - rewrite (Hlong Hx) in *.
    replace ((-4 <=? x10) && (x10 <? 6)) with false
      by (symmetry; apply andb_false_iff; right; apply Z.ltb_ge; lia).
    destruct (reduce 5 d (x10 - 5)) as [m e] eqn:Hred.
    destruct (Shown.reduce_keeps_value 5 d (x10 - 5) m e Hred) as [Hle Hval].
    unfold reads_as. replace (0 <=? e) with true by (symmetry; apply Z.leb_le; lia).
    assert (E : m * 10 ^ e = d * 10 ^ (x10 - 5)).
    { rewrite <- Hval. replace e with (e - (x10 - 5) + (x10 - 5)) at 1 by lia.
      rewrite Z.pow_add_r by lia. lia. }
    rewrite E. apply Exact.nearest_double_count. lia.
Qed.

Lemma count_finite (n : Z) : 0 < n < 2 ^ 53 -> finite (double_of_count n) = true.
Proof.
  intros Hn. destruct (Exact.double_of_count_exact n Hn) as (m & e & Hx & _).
  unfold finite. now rewrite Hx.
Qed.

(** A count below [10 ^ 15] is read back as the count rounded to six
    digits: as itself exactly when six digits write it. *)
Lemma count_read_back (n : Z) :
  0 < n < 10 ^ 15 ->
  Strtod.parse (Printf.double (double_of_count n))
  = Some (double_of_count (six_digit_count n)) /\
  (Strtod.parse (Printf.double (double_of_count n)) = Some (double_of_count n)
   <-> six_figures n).
Proof.
  intros Hn.
  assert (H15 : 10 ^ 15 = 1000000000000000) by reflexivity.
  assert (H53 : 2 ^ 53 = 9007199254740992) by reflexivity.
  destruct (six_digit_count_spec n ltac:(lia)) as (Ha0 & _ & Herr & Hiff).
  assert (Hp : Strtod.parse (Printf.double (double_of_count n))
               = Some (double_of_count (six_digit_count n))).
  { rewrite (ReadBack.parse_double _ (count_finite n ltac:(lia))).
    now rewrite (six_digit_double_count n Hn). }
  split; [exact Hp|]. rewrite Hp, <- Hiff. split.
  - intros [= E]. apply (Exact.double_of_count_inj (six_digit_count n) n); [lia|lia|exact E].
  - now intros ->.
Qed.

End Counts.

(** C9, refuted as stated: a sample of 1234567 ticks is written on the
    third line as [1.23457e+06], which reads back as 1234570; and 1234567
    and 1234568 are written alike, so that no reading whatever gives both
    back. *)
Lemma six_digits_lose_ticks :
  let t := {| _startTime := 0%Z; _timeDiff := [1234567%float];
              _activeTimer := false; _name := "t" |} in
  match saveTimingData writable_fs "out.csv" t quiet with
  | Returns io => option_map (fun s => nth_error (lines s) 2) (files io "out.csv")
  | _ => None
  end = Some (Some "1.23457e+06") /\
  map Strtod.parse (split_on "," "1.23457e+06") = [Some 1234570%float] /\
  1234570%float <> 1234567%float /\
  samples_line [1234567%float] = samples_line [1234568%float] /\
  (forall read : string -> list float,
      read (samples_line [1234567%float]) = [1234567%float] ->
      read (samples_line [1234568%float]) = [1234568%float] -> False).
Proof.
  intros t.
  assert (Hne : forall a b : float, Leibniz.eqb a b = false -> a <> b).
  { intros a b Hab E. apply FloatAxioms.Leibniz.eqb_spec in E. congruence. }
  assert (Hsame : samples_line [1234567%float] = samples_line [1234568%float])
    by (vm_compute; reflexivity).
  split; [vm_compute; reflexivity|].
  split; [vm_compute; reflexivity|].
  split; [apply Hne; reflexivity|].
  split; [exact Hsame|].
  intros read H7 H8. rewrite Hsame, H8 in H7.
  apply (f_equal (fun l => hd 0%float l)) in H7. cbn [hd] in H7.
  revert H7. apply Hne. reflexivity.
Qed.

(** C9, amended: for a timer with samples and a path that opens, the file
    holds the two report lines and then one line with every raw sample,
    unscaled and in order, separated by commas, each printed in the stream's
    default format of six significant digits; splitting that line on commas
    gives these printed samples back, one field per sample and in order, and
    when the name has no line feed it is the third line of the file.
    Parsing the field of a finite sample gives the double of the sample's
    six digits: for a sample other than zero, of sign [s] and magnitude
    [num / den], the double that the conversion gives for the decimal
    [m * 10 ^ e] with the sign [s], where [m * 10 ^ e] is
    [d * 10 ^ (x10 - 5)] and [d], of six digits, is within one half of
    [num / den * 10 ^ (5 - x10)]; zero is read back as zero. So the fields
    of finite samples parse to the samples themselves if and only if every
    sample is the double of its own six digits. A sample that is the cast
    of a count of [n] ticks, [0 < n < 10 ^ 15], is read back as the cast of
    the count rounded to six significant digits, which is within
    [n / 200000] of [n]: as itself if and only if six significant digits
    write [n], as they do 100, 200 and 300. *)
Theorem saved_samples_line (env : Env) (filePath : string) (t : PerfTimer) (io : IO) :
  openable env filePath = true -> _timeDiff t <> [] ->
  (exists st io',
      statistics t = Returns st /\
      saveTimingData env filePath t io = Returns io' /\
      files io' filePath =
        Some (name_line t ++ endl ++ stats_line st ++ endl ++
              samples_line (_timeDiff t) ++ endl)%string /\
      (no_newline (_name t) ->
       lines (name_line t ++ endl ++ stats_line st ++ endl ++
              samples_line (_timeDiff t) ++ endl)%string =
       [name_line t; stats_line st; samples_line (_timeDiff t)])) /\
  samples_line (_timeDiff t) = String.concat "," (map Printf.double (_timeDiff t)) /\
  split_on "," (samples_line (_timeDiff t)) = map Printf.double (_timeDiff t) /\
  (forall x : float,
      In x (_timeDiff t) -> Numeral.finite x = true ->
      Strtod.parse (Printf.double x) = Some (Numeral.six_digit_double x)) /\
  (Forall (fun x => Numeral.finite x = true) (_timeDiff t) ->
   map Strtod.parse (split_on "," (samples_line (_timeDiff t))) =
     map (fun x => Some (Numeral.six_digit_double x)) (_timeDiff t) /\
   (map Strtod.parse (split_on "," (samples_line (_timeDiff t))) =
      map Some (_timeDiff t) <->
    Forall (fun x => Numeral.six_digit_double x = x) (_timeDiff t))) /\
  (forall (x : float) (s : bool) (num den : Z),
      In x (_timeDiff t) -> Numeral.fraction x = Some (s, num, den) ->
      exists d x10 m e : Z,
        Printf.six_digits num den = (d, x10) /\
        Numeral.six_digit_rounding num den d x10 /\
        (x10 - 5 <= e)%Z /\ (m * 10 ^ (e - (x10 - 5)) = d)%Z /\
        Numeral.six_digit_double x = Numeral.reads_as s m e) /\
  (forall (x : float) (s : bool),
      In x (_timeDiff t) -> Prim2SF x = S754_zero s ->
      Numeral.six_digit_double x = x) /\
  (forall n : Z,
      In (double_of_count n) (_timeDiff t) -> (0 < n < 10 ^ 15)%Z ->
      Strtod.parse (Printf.double (double_of_count n)) =
        Some (double_of_count (Numeral.six_digit_count n)) /\
      Numeral.six_figures (Numeral.six_digit_count n) /\
      (200000 * Z.abs (Numeral.six_digit_count n - n) <= n)%Z /\
      (Strtod.parse (Printf.double (double_of_count n)) = Some (double_of_count n)
       <-> Numeral.six_figures n)) /\
  map Strtod.parse (split_on "," (samples_line [100; 200; 300]%float)) =
    [Some 100; Some 200; Some 300]%float.
Proof.
  intros Hopen Hv.
  split; [|split; [reflexivity|split; [|split; [|split; [|split; [|split; [|split]]]]]]].
  - destruct (Written.statistics_nonempty t Hv) as [st Hst].
    pose proof (saveTimingData_returns env filePath t io st Hst Hv) as Hsave.
    rewrite Hopen in Hsave.
    exists st. eexists. split; [exact Hst|]. split; [exact Hsave|].
    split.
    + cbn [files]. unfold ofstream_close, is_open.
      rewrite Written.insert_insert. unfold insert. cbn [good text].
      rewrite String.eqb_refl. unfold inserted, Insertable_string.
      cbn [append]. now rewrite !Text.append_assoc.
    + intros Hname. apply Layout.three_lines.
      * now apply Layout.no_newline_name_line.
      * apply Layout.no_newline_stats_line.
      * apply Layout.no_newline_samples_line.
  - now apply Layout.fields_of_samples_line.
  - intros x _ Hx. exact (ReadBack.parse_double x Hx).
  - intros Hfin. rewrite (Layout.fields_of_samples_line _ Hv).
    split; [exact (ReadBack.parse_fields _ Hfin)|].
    rewrite (ReadBack.parse_fields _ Hfin). apply ReadBack.same_samples.
  - intros x s num den _ Hf. exact (ReadBack.six_digit_double_decimal x s num den Hf).
  - intros x s _ Hx. exact (ReadBack.six_digit_double_zero x s Hx).
  - intros n _ Hn.
    destruct (Counts.count_read_back n Hn) as [Hread Hiff].
    destruct (Counts.six_digit_count_spec n (proj1 Hn)) as (_ & Hsix & Herr & _).
    split; [exact Hread|]. split; [exact Hsix|]. split; [exact Herr|exact Hiff].
  - vm_compute. reflexivity.
Qed.

Lemma saved_samples_line_witness :
  openable writable_fs "out.csv" = true /\ _timeDiff three_runs <> [] /\
  Forall (fun x => Numeral.finite x = true) (_timeDiff three_runs) /\
  map Strtod.parse (split_on "," (samples_line (_timeDiff three_runs))) =
  map (fun x => Some (Numeral.six_digit_double x)) (_timeDiff three_runs) /\
  In (double_of_count 100) (_timeDiff three_runs) /\ (0 < 100 < 10 ^ 15)%Z /\
  (Strtod.parse (Printf.double (double_of_count 100)) = Some (double_of_count 100)
   <-> Numeral.six_figures 100).
Proof.
  assert (Hv : _timeDiff three_runs <> []) by discriminate.
  assert (Hfin : Forall (fun x => Numeral.finite x = true) (_timeDiff three_runs))
    by (repeat constructor).
  assert (Hin : In (double_of_count 100) (_timeDiff three_runs))
    by (left; reflexivity).
  assert (Hn : (0 < 100 < 10 ^ 15)%Z) by (split; reflexivity).
  split; [reflexivity|]. split; [exact Hv|]. split; [exact Hfin|].
  destruct (saved_samples_line writable_fs "out.csv" three_runs quiet eq_refl Hv)
    as (_ & _ & _ & _ & Hread & _ & _ & Hcount & _).
  split; [exact (proj1 (Hread Hfin))|]. split; [exact Hin|]. split; [exact Hn|].
  exact (proj2 (proj2 (proj2 (Hcount 100%Z Hin Hn)))).
Defined.

(** ** Statistics *)

(** C6: for a timer with samples [reportStats] returns and writes the two
    report lines for these figures: the count is the length of the
    sequence, the total its sum, the mean the total divided by the count,
    the standard deviation the population one (the squared deviations
    divided by the count), the minimum and the maximum extrema of the
    sequence (for the maximum, of a sequence without NaN, as every sequence
    is that start/stop calls produce). For the samples 100, 200, 300: total
    600, mean 200, deviation sqrt(20000/3), about 81.65 (and not the 100
    that dividing by count - 1 gives), minimum 100, maximum 300, each
    printed in ns. *)
Theorem reportStats_figures :
  (forall (t : PerfTimer) (os : ostream),
      _timeDiff t <> [] ->
      exists st,
        statistics t = Returns st /\
        reportStats t os =
          Returns (os << (name_line t ++ endl ++ stats_line st ++ endl)%string) /\
        trials st = List.length (_timeDiff t) /\
        totalTime st = sum_of (_timeDiff t) /\
        avgTime st = (totalTime st / double_of_size (trials st))%float /\
        stdDev st = population_sd (_timeDiff t) /\
        is_minimum (minTime st) (_timeDiff t) /\
        (no_nan (_timeDiff t) -> is_maximum (maxTime st) (_timeDiff t))) /\
  (forall t : PerfTimer, reachable t -> no_nan (_timeDiff t)) /\
  statistics three_runs =
    Returns {| trials := 3; totalTime := 600; avgTime := 200;
               stdDev := sqrt (20000 / 3); minTime := 100; maxTime := 300 |} /\
  (81.64 <? sqrt (20000 / 3))%float = true /\
  (sqrt (20000 / 3) <? 81.66)%float = true /\
  (sqrt (20000 / 3) <? sqrt (20000 / 2))%float = true /\
  map _converter [600; 200; sqrt (20000 / 3); 100; 300]%float =
    [(600, "ns"); (200, "ns"); (sqrt (20000 / 3), "ns"); (100, "ns"); (300, "ns")]%float /\
  reportStats three_runs (mk_ostream true "") =
    Returns (mk_ostream true
      ("Timer name: t" ++ endl ++
       "  Number of trials: 3, Total time: 600ns, Average Time: 200ns, Standard Deviation: 81.6497ns, Fastest Run: 100ns, Slowest Run: 300ns"
       ++ endl)).
Proof.
  split; [|split; [exact reachable_no_nan|repeat split; vm_compute; reflexivity]].
  intros t os Hv.
  destruct (Written.statistics_nonempty t Hv) as [st Hst].
  exists st. split; [exact Hst|].
  split; [exact (Written.reportStats_text t st os Hst)|].
  unfold statistics in Hst.
  destruct (minmax_element (_timeDiff t)) as [[lo hi]|] eqn:Hmm; [|discriminate].
  injection Hst as <-. cbn [trials totalTime avgTime stdDev minTime maxTime].
  split; [reflexivity|]. split; [reflexivity|]. split; [reflexivity|].
  split; [apply Figures._standardDeviation_population|].
  split.
  - exact (Figures.minmax_element_min _ lo hi Hmm).
  - intros Hnan. exact (Figures.minmax_element_max _ lo hi Hnan Hmm).
Qed.

Lemma reportStats_figures_witness :
  _timeDiff three_runs <> [] /\
  no_nan (_timeDiff three_runs) /\
  exists st,
    statistics three_runs = Returns st /\
    trials st = 3 /\ is_minimum (minTime st) (_timeDiff three_runs) /\
    is_maximum (maxTime st) (_timeDiff three_runs).
Proof.
  assert (Hv : _timeDiff three_runs <> []) by discriminate.
  assert (Hnan : no_nan (_timeDiff three_runs)) by (repeat constructor).
  split; [exact Hv|]. split; [exact Hnan|].
  destruct (proj1 reportStats_figures three_runs (mk_ostream true "") Hv)
    as (st & Hst & _ & Hn & _ & _ & _ & Hmin & Hmax).
  exists st. split; [exact Hst|]. split; [exact Hn|].
  split; [exact Hmin|exact (Hmax Hnan)].
Defined.

(** C7: every raw duration lies in exactly one tier, fixed by the
    thresholds, and [_converter] returns that tier's scaled value and label:
    up to 1.0E3 the value itself in ns (1.0E3 included), above 1.0E3 and up
    to 1.0E6 the value times 1e-3 in microseconds (the next double after
    1.0E3 included), then times 1e-6 in ms up to 1.0E9, times 1e-9 in s up
    to 6.0E11, times 1e-9/60 in mins up to 1.08E13, and times 1e-9/3600 in
    hrs otherwise. *)
Theorem converter_selects_one_tier (time : float) :
  (exists k, in_tier k time /\ forall k', in_tier k' time -> k' = k) /\
  (forall k, in_tier k time -> _converter time = (scaled k time, label k)) /\
  _converter 1.0E3 = (1.0E3, "ns")%float /\
  _converter (next_up 1.0E3) = (next_up 1.0E3 * 1E-3, "µs")%float.
Proof.
  split; [|split; [|split; reflexivity]].
  - destruct (Units.tier_exists time) as [k Hk]. exists k. split; [exact Hk|].
    intros k' Hk'. exact (Units.tier_unique k' k time Hk' Hk).
  - intros k. apply Units.converter_in_tier.
Qed.

Lemma converter_selects_one_tier_witness :
  in_tier Micro 2500 /\ _converter 2500 = (scaled Micro 2500, label Micro).
Proof.
  assert (H : in_tier Micro 2500) by (split; reflexivity).
  split; [exact H|].
  exact (proj1 (proj2 (converter_selects_one_tier 2500)) Micro H).
Defined.

(** * Further properties of PerfTimer *)
Module Sequences.

Lemma reportStats_with_samples (t : PerfTimer) (os : ostream) :
  _timeDiff t <> [] -> exists os', reportStats t os = Returns os'.
Proof.
  intros Hv. destruct (Written.statistics_nonempty t Hv) as [st Hst].
  rewrite (Written.reportStats_text t st os Hst). eauto.
Qed.

Lemma reportStats_no_samples (t : PerfTimer) (os : ostream) :
  _timeDiff t = [] -> reportStats t os = Undefined.
Proof. intros Hv. unfold reportStats, statistics. now rewrite Hv. Qed.

Lemma saveTimingData_with_samples (env : Env) (filePath : string)
    (t : PerfTimer) (io : IO) :
  _timeDiff t <> [] -> exists io', saveTimingData env filePath t io = Returns io'.
Proof.
  intros Hv. destruct (Written.statistics_nonempty t Hv) as [st Hst].
  rewrite (saveTimingData_returns env filePath t io st Hst Hv). eauto.
Qed.

Lemma saveTimingData_no_samples (env : Env) (filePath : string)
    (t : PerfTimer) (io : IO) :
  _timeDiff t = [] -> saveTimingData env filePath t io = Undefined.
Proof.
  intros Hv. unfold saveTimingData.
  now rewrite (reportStats_no_samples t _ Hv).
Qed.

Lemma held_samples (t : PerfTimer) :
  (0 <? List.length (_timeDiff t))%nat = true <-> _timeDiff t <> [].
Proof.
  destruct (_timeDiff t); simpl; split; try discriminate; try reflexivity.
  congruence.
Qed.

Lemma run_records (env : Env) (cs : list Call) :
  forall t io t' io',
    _activeTimer t = false ->
    run env cs (t, io) = Returns (t', io') ->
    _timeDiff t' =
      (_timeDiff t ++ map double_of_count (recorded (_startTime t) cs))%list /\
    _name t' = _name t.
Proof.
  induction cs as [|c cs IH]; intros t io t' io' Hflag; simpl.
  - intros [= <- <-]. now rewrite app_nil_r.
  - destruct c as [now|now| |filePath]; simpl.
    + unfold startTimer. rewrite Hflag. cbn [bind]. intros Hrun.
      apply IH in Hrun; [exact Hrun|reflexivity].
    + intros Hrun. apply IH in Hrun; [|reflexivity].
      destruct Hrun as [Hv Hn].
      simpl in Hv, Hn. rewrite Hv, <- app_assoc. now split.
    + destruct (reportStats t (cout io)); simpl; try discriminate.
      intros Hrun. exact (IH _ _ _ _ Hflag Hrun).
    + destruct (saveTimingData env filePath t io); simpl; try discriminate.
      intros Hrun. exact (IH _ _ _ _ Hflag Hrun).
Qed.

Lemma run_cycles (env : Env) (l : list (time_point * time_point)) :
  forall t io,
    _activeTimer t = false ->
    exists t',
      run env (cycles l) (t, io) = Returns (t', io) /\
      _activeTimer t' = false /\
      _timeDiff t' =
        (_timeDiff t ++ map (fun p => double_of_count (snd p - fst p)) l)%list.
Proof.
  induction l as [|[a b] l IH]; intros t io Hflag.
  - exists t. simpl. now rewrite app_nil_r.
  - change (cycles ((a, b) :: l))
      with (CallStart a :: CallStop b :: cycles l).
    cbn [run call bind]. unfold startTimer at 1. rewrite Hflag. cbn [bind call].
    destruct (IH (stopTimer b {| _startTime := a; _timeDiff := _timeDiff t;
                                 _activeTimer := _activeTimer t;
                                 _name := _name t |}) io eq_refl)
      as (t' & Hrun & Hflag' & Hv).
    exists t'. split; [exact Hrun|]. split; [exact Hflag'|].
    rewrite Hv. simpl. now rewrite <- app_assoc.
Qed.

Lemma run_outcome (env : Env) (cs : list Call) :
  forall t io,
    if reports_after_a_stop (List.length (_timeDiff t)) cs
    then exists s', run env cs (t, io) = Returns s'
    else run env cs (t, io) = Undefined.
Proof.
  induction cs as [|c cs IH]; intros t io; simpl.
  - eauto.
  - destruct c as [now|now| |filePath]; cbn [call bind].
    + specialize (IH (fst (startTimer now t io)) (snd (startTimer now t io))).
      rewrite <- surjective_pairing in IH.
      replace (_timeDiff (fst (startTimer now t io))) with (_timeDiff t) in IH
        by (unfold startTimer; now destruct (_activeTimer t)).
      exact IH.
    + specialize (IH (stopTimer now t) io). simpl _timeDiff in IH.
      rewrite length_app, Nat.add_comm in IH. exact IH.
    + destruct (0 <? List.length (_timeDiff t))%nat eqn:Hn; simpl.
      * apply held_samples in Hn.
        destruct (reportStats_with_samples t (cout io) Hn) as [os' ->].
        cbn [bind]. apply IH.
      * rewrite reportStats_no_samples; [reflexivity|].
        destruct (_timeDiff t); [reflexivity|discriminate].
    + destruct (0 <? List.length (_timeDiff t))%nat eqn:Hn; simpl.
      * apply held_samples in Hn.
        destruct (saveTimingData_with_samples env filePath t io Hn) as [io' ->].
        cbn [bind]. apply IH.
      * rewrite saveTimingData_no_samples; [reflexivity|].
        destruct (_timeDiff t); [reflexivity|discriminate].
Qed.

End Sequences.

(** Whatever calls are made on a timer that a client holds, if they return
    then the samples held before are still there, in place, followed by one
    sample per stop: the ticks from the latest start before that stop (from
    the start mark held before the calls when there is none); the name is
    unchanged. *)
Theorem stops_record_since_latest_start (env : Env) (cs : list Call)
    (t t' : PerfTimer) (io io' : IO) :
  reachable t ->
  run env cs (t, io) = Returns (t', io') ->
  _timeDiff t' =
    (_timeDiff t ++ map double_of_count (recorded (_startTime t) cs))%list /\
  firstn (List.length (_timeDiff t)) (_timeDiff t') = _timeDiff t /\
  _name t' = _name t.
Proof.
  intros (env0 & name & cs0 & io0 & io1 & Hr) Hrun.
  assert (Hflag : _activeTimer t = false)
    by exact (run_keeps_flag_clear env0 cs0 (new_PerfTimer name, io0) (t, io1)
                eq_refl Hr).
  destruct (Sequences.run_records env cs t io t' io' Hflag Hrun) as [Hv Hn].
  split; [exact Hv|]. split; [|exact Hn].
  rewrite Hv, firstn_app, Nat.sub_diag, firstn_all. simpl. apply app_nil_r.
Qed.

Lemma stops_record_since_latest_start_witness :
  let cs := [CallStop 5; CallStart 10; CallStart 20; CallStop 50; CallStop 70]%Z in
  reachable (new_PerfTimer "t") /\
  exists t',
    run writable_fs cs (new_PerfTimer "t", quiet) = Returns (t', quiet) /\
    _timeDiff t' = ([] ++ map double_of_count (recorded 0%Z cs))%list.
Proof.
  intros cs.
  assert (Hr : reachable (new_PerfTimer "t")).
  { exists writable_fs, "t"%string, [], quiet, quiet. reflexivity. }
  split; [exact Hr|].
  eexists. split; [reflexivity|].
  exact (proj1 (stops_record_since_latest_start writable_fs cs
                  (new_PerfTimer "t") _ quiet quiet Hr eq_refl)).
Defined.

(** After [n] start/stop cycles on a fresh timer, the timer holds exactly
    [n] samples, the durations of the cycles in order, and nothing was
    printed. *)
Theorem cycles_give_their_durations (env : Env) (name : string) (io : IO)
    (l : list (time_point * time_point)) :
  exists t',
    run env (cycles l) (new_PerfTimer name, io) = Returns (t', io) /\
    _timeDiff t' = map (fun p => double_of_count (snd p - fst p)) l /\
    List.length (_timeDiff t') = List.length l.
Proof.
  destruct (Sequences.run_cycles env l (new_PerfTimer name) io eq_refl)
    as (t' & Hrun & _ & Hv).
  exists t'. split; [exact Hrun|]. simpl in Hv. split; [exact Hv|].
  now rewrite Hv, length_map.
Qed.

(** A sequence of calls leaves defined behaviour exactly when it asks for a
    report or an export while the timer holds no sample; otherwise it
    returns. No call ever throws. *)
Theorem calls_defined_iff_reports_follow_a_stop (env : Env) (cs : list Call)
    (t : PerfTimer) (io : IO) :
  (forall e, run env cs (t, io) <> Throws e) /\
  ((exists s', run env cs (t, io) = Returns s') <->
   reports_after_a_stop (List.length (_timeDiff t)) cs = true) /\
  (run env cs (t, io) = Undefined <->
   reports_after_a_stop (List.length (_timeDiff t)) cs = false).
Proof.
  pose proof (Sequences.run_outcome env cs t io) as H.
  destruct (reports_after_a_stop (List.length (_timeDiff t)) cs).
  - destruct H as [s' Hs]. rewrite Hs. repeat split; try discriminate; eauto.
  - rewrite H. repeat split; try discriminate; try reflexivity.
    intros [s' Hs]. discriminate.
Qed.

Lemma calls_defined_iff_reports_follow_a_stop_witness :
  (exists s', run writable_fs [CallStart 1%Z; CallStop 4%Z; CallReport]
                (new_PerfTimer "t", quiet) = Returns s') /\
  run writable_fs [CallStart 1%Z; CallReport; CallStop 4%Z]
    (new_PerfTimer "t", quiet) = Undefined.
Proof.
  split.
  - apply (proj1 (proj2 (calls_defined_iff_reports_follow_a_stop writable_fs
             [CallStart 1%Z; CallStop 4%Z; CallReport] (new_PerfTimer "t") quiet))).
    reflexivity.
  - apply (proj2 (proj2 (calls_defined_iff_reports_follow_a_stop writable_fs
             [CallStart 1%Z; CallReport; CallStop 4%Z] (new_PerfTimer "t") quiet))).
    reflexivity.
Defined.

(** A report on a timer with samples appends to what the stream holds, and
    appends exactly two lines when the name has no line feed: the name line
    and the line of figures; a stream that does not accept output is left
    as it is. *)
Theorem reportStats_appends_two_lines (t : PerfTimer) (os : ostream) :
  _timeDiff t <> [] ->
  exists st,
    statistics t = Returns st /\
    reportStats t os =
      Returns (if good os
               then {| good := true;
                       text := (text os ++ name_line t ++ endl
                                  ++ stats_line st ++ endl)%string |}
               else os) /\
    (no_newline (_name t) ->
     lines (name_line t ++ endl ++ stats_line st ++ endl)%string
     = [name_line t; stats_line st]).
Proof.
  intros Hv. destruct (Written.statistics_nonempty t Hv) as [st Hst].
  exists st. split; [exact Hst|]. split.
  - rewrite (Written.reportStats_text t st os Hst). reflexivity.
  - intros Hname. unfold endl.
    change (lines (name_line t ++ String "010" (stats_line st ++ String "010" ""))%string
            = [name_line t; stats_line st]).
    rewrite !Text.lines_line; [reflexivity| |].
    + apply Layout.no_newline_stats_line.
    + now apply Layout.no_newline_name_line.
Qed.

Lemma reportStats_appends_two_lines_witness :
  _timeDiff three_runs <> [] /\
  exists st,
    statistics three_runs = Returns st /\
    (no_newline (_name three_runs) ->
     lines (name_line three_runs ++ endl ++ stats_line st ++ endl)%string
     = [name_line three_runs; stats_line st]).
Proof.
  assert (Hv : _timeDiff three_runs <> []) by discriminate.
  split; [exact Hv|].
  destruct (reportStats_appends_two_lines three_runs (mk_ostream true "") Hv)
    as (st & Hst & _ & Hlines).
  exists st. split; [exact Hst|exact Hlines].
Defined.

(** An export to a path that opens replaces what the file held (the new
    content does not depend on the files before), leaves every other file
    as it was, writes nothing on the error console and reports the opening
    on standard output. *)
Theorem saveTimingData_overwrites_only_its_path (env : Env) (filePath : string)
    (t : PerfTimer) (io : IO) :
  openable env filePath = true -> _timeDiff t <> [] ->
  exists io' content,
    saveTimingData env filePath t io = Returns io' /\
    files io' filePath = Some content /\
    (forall p, p <> filePath -> files io' p = files io p) /\
    cout io' = cout io << "yes I'm open"%string << endl /\
    cerr io' = cerr io /\
    (forall io2, exists io2',
        saveTimingData env filePath t io2 = Returns io2' /\
        files io2' filePath = Some content).
Proof.
  intros Hopen Hv. destruct (Written.statistics_nonempty t Hv) as [st Hst].
  assert (Hsave : forall i, exists i',
             saveTimingData env filePath t i = Returns i' /\
             files i' = ofstream_close filePath
                          ({| good := true; text := "" |}
                             << (name_line t ++ endl ++ stats_line st ++ endl)%string
                             << (samples_line (_timeDiff t) ++ endl)%string)
                          (files i) /\
             cout i' = cout i << "yes I'm open"%string << endl /\
             cerr i' = cerr i).
  { intros i. pose proof (saveTimingData_returns env filePath t i st Hst Hv) as H.
    rewrite Hopen in H. eexists. split; [exact H|]. repeat split. }
  destruct (Hsave io) as (io' & Hio' & Hfiles & Hcout & Hcerr).
  exists io'. eexists. split; [exact Hio'|].
  split; [|split; [|split; [exact Hcout|split; [exact Hcerr|]]]].
  - rewrite Hfiles. unfold ofstream_close, is_open.
    rewrite !Written.good_insert. cbn [good]. now rewrite String.eqb_refl.
  - intros p Hp. rewrite Hfiles. unfold ofstream_close, is_open.
    rewrite !Written.good_insert. cbn [good].
    apply String.eqb_neq in Hp. now rewrite Hp.
  - intros io2. destruct (Hsave io2) as (io2' & Hio2' & Hfiles2 & _).
    exists io2'. split; [exact Hio2'|].
    rewrite Hfiles2. unfold ofstream_close, is_open.
    rewrite !Written.good_insert. cbn [good]. now rewrite String.eqb_refl.
Qed.

Lemma saveTimingData_overwrites_only_its_path_witness :
  openable writable_fs "out.csv" = true /\ _timeDiff three_runs <> [] /\
  exists io',
    saveTimingData writable_fs "out.csv" three_runs quiet = Returns io' /\
    (forall p, p <> "out.csv"%string -> files io' p = files quiet p).
Proof.
  split; [reflexivity|]. split; [discriminate|].
  destruct (saveTimingData_overwrites_only_its_path writable_fs "out.csv"
              three_runs quiet eq_refl) as (io' & content & H & _ & Hframe & _).
  - discriminate.
  - exists io'. split; [exact H|exact Hframe].
Defined.

(** A duration that is zero or negative (a clock that stepped back), however
    large its magnitude, and minus infinity, is reported as it is, in ns. *)
Theorem converter_nonpositive_in_ns (time : float) :
  (time <=? 0)%float = true -> _converter time = (time, "ns").
Proof.
  intros H. apply (Units.converter_in_tier Finest). simpl.
  apply (FloatOrder.leb_trans time 0 1.0E3); [exact H|reflexivity].
Qed.

Lemma converter_nonpositive_in_ns_witness :
  ((-5.0E9) <=? 0)%float = true /\
  _converter (-5.0E9)%float = ((-5.0E9)%float, "ns").
Proof.
  split; [reflexivity|].
  apply converter_nonpositive_in_ns. reflexivity.
Defined.

(** * Properties of InputParser *)
Module CppArgParserFacts.
Import CppArgParser.

Lemma find_le (v : list string) (x : string) : find v x <= List.length v.
Proof.
  induction v as [|y r IH]; simpl; [lia|].
  destruct (String.eqb y x); lia.
Qed.

Lemma find_end (v : list string) (x : string) :
  find v x = List.length v <-> ~ In x v.
Proof.
  induction v as [|y r IH]; simpl; [tauto|].
  destruct (String.eqb_spec y x) as [->|Hne].
  - split; [discriminate|]. intros H. exfalso. apply H. now left.
  - split.
    + intros [= Hf] [Hy|Hr]; [congruence|]. now apply IH in Hf.
    + intros Hn. f_equal. apply IH. tauto.
Qed.

Lemma find_skips (pre r : list string) (x : string) :
  ~ In x pre -> find (pre ++ x :: r) x = List.length pre.
Proof.
  induction pre as [|y pre IH]; simpl.
  - intros _. now rewrite String.eqb_refl.
  - intros Hn. destruct (String.eqb_spec y x) as [->|Hne]; [tauto|].
    f_equal. apply IH. tauto.
Qed.

Lemma find_splits (v : list string) (x : string) :
  In x v ->
  exists pre r, v = pre ++ x :: r /\ ~ In x pre /\ find v x = List.length pre.
Proof.
  induction v as [|y v IH]; simpl; [tauto|]. intros Hin.
  destruct (String.eqb_spec y x) as [->|Hne].
  - exists [], v. simpl. tauto.
  - destruct IH as (pre & r & -> & Hn & Hf); [tauto|].
    exists (y :: pre), r. simpl. rewrite Hf. repeat split.
    intros [Hy|Hp]; tauto.
Qed.

Lemma split_unique (pre pre' r r' : list string) (x : string) :
  ~ In x pre -> ~ In x pre' -> pre ++ x :: r = pre' ++ x :: r' ->
  pre = pre' /\ r = r'.
Proof.
  revert pre'. induction pre as [|y pre IH]; intros [|y' pre']; simpl.
  - intros _ _ [= ->]. tauto.
  - intros _ Hn [= -> _]. tauto.
  - intros Hn _ [= -> _]. tauto.
  - intros Hn Hn' [= -> Hrest].
    destruct (IH pre') as [-> ->]; tauto.
Qed.

Lemma push_from_takes (argv : list string) (count : nat) :
  forall i acc,
    i + count <= List.length argv ->
    push_from argv i count acc = Some (acc ++ firstn count (skipn i argv)).
Proof.
  induction count as [|c IH]; intros i acc Hlen; simpl.
  - now rewrite app_nil_r.
  - destruct (nth_error argv i) as [a|] eqn:Ha.
    + rewrite IH by lia.
      assert (Hs : skipn i argv = a :: skipn (S i) argv).
      { clear - Ha. revert i Ha.
        induction argv as [|y argv IH]; intros [|i]; simpl; try discriminate.
        - now intros [= ->].
        - intros Hi. now rewrite (IH _ Hi). }
      rewrite Hs. simpl. now rewrite <- app_assoc.
    + apply nth_error_None in Ha. lia.
Qed.

Lemma push_from_past_end (argv : list string) (count : nat) :
  forall i acc,
    0 < count -> List.length argv < i + count ->
    push_from argv i count acc = None.
Proof.
  induction count as [|c IH]; intros i acc Hpos Hlen; simpl; [lia|].
  destruct (nth_error argv i) as [a|] eqn:Ha; [|reflexivity].
  assert (Hi : i < List.length argv)
    by (apply nth_error_Some; congruence).
  apply IH; lia.
Qed.

(** The constructor keeps the arguments that follow the program name: with
    [argc] the number of entries of [argv], the tokens are [argv] without
    its first entry, so the program name is never looked up; an [argc]
    beyond the entries of [argv] reads past its end. *)
Theorem new_InputParser_tokens (argc : Z) (argv : list string) :
  (argc = Z.of_nat (List.length argv) ->
   new_InputParser argc argv = Some {| tokens := tl argv |}) /\
  (1 < argc -> Z.of_nat (List.length argv) < argc ->
   new_InputParser argc argv = None)%Z.
Proof.
  unfold new_InputParser. split.
  - intros ->. destruct argv as [|prog args]; [reflexivity|].
    rewrite push_from_takes by (simpl List.length; lia).
    replace (Z.to_nat (Z.of_nat (List.length (prog :: args)) - 1))
      with (List.length args) by (simpl List.length; lia).
    simpl. now rewrite firstn_all.
  - intros H1 Hlen. rewrite push_from_past_end; [reflexivity|lia|lia].
Qed.

Lemma new_InputParser_tokens_witness :
  new_InputParser 4 ["prog"; "-n"; "8"; "-v"]%string =
  Some {| tokens := ["-n"; "8"; "-v"]%string |} /\
  new_InputParser 3 ["prog"; "-n"]%string = None.
Proof.
  split.
  - apply (proj1 (new_InputParser_tokens 4 ["prog"; "-n"; "8"; "-v"]%string)).
    reflexivity.
  - apply (proj2 (new_InputParser_tokens 3 ["prog"; "-n"]%string)); reflexivity.
Defined.

(** [cmdOptionExists] says whether the flag is one of the tokens. *)
Theorem cmdOptionExists_iff (p : InputParser) (flag : string) :
  cmdOptionExists p flag = true <-> In flag (tokens p).
Proof.
  unfold cmdOptionExists. rewrite negb_true_iff, Nat.eqb_neq, find_end.
  destruct (in_dec string_dec flag (tokens p)); tauto.
Qed.

Lemma getCmdOption_cases (p : InputParser) (flag : string) :
  (~ In flag (tokens p) /\
   getCmdOption p flag =
     Raised (invalid_argument ("Error: argument '" ++ flag ++ "' not found. ")))
  \/
  (exists pre, tokens p = pre ++ [flag] /\ ~ In flag pre /\
   getCmdOption p flag =
     Raised (invalid_argument ("Error: empty argument '" ++ flag ++ "'")))
  \/
  (exists pre v rest, tokens p = pre ++ flag :: v :: rest /\ ~ In flag pre /\
   getCmdOption p flag = Value v).
Proof.
  unfold getCmdOption, cmdOptionExists.
  destruct (in_dec string_dec flag (tokens p)) as [Hin|Hout].
  - right. destruct (find_splits _ _ Hin) as (pre & r & Htok & Hn & Hf).
    assert (Hlen : List.length (tokens p) = List.length pre + S (List.length r))
      by (rewrite Htok, length_app; reflexivity).
    destruct (Nat.eqb_spec (find (tokens p) flag) (List.length (tokens p)))
      as [He|_]; [lia|].
    destruct (Nat.eqb_spec (S (find (tokens p) flag)) (List.length (tokens p)))
      as [He|Hne]; cbn [negb andb].
    + left. exists pre. destruct r as [|w rest]; [|simpl in Hlen; lia].
      tauto.
    + right. destruct r as [|w rest]; [simpl in Hlen; lia|].
      exists pre, w, rest. split; [exact Htok|]. split; [exact Hn|].
      f_equal. rewrite Hf, Htok, app_nth2 by lia.
      replace (S (List.length pre) - List.length pre) with 1 by lia.
      reflexivity.
  - left. split; [exact Hout|].
    apply find_end in Hout. rewrite Hout, Nat.eqb_refl. reflexivity.
Qed.

(** [getCmdOption] returns [v] exactly when [v] is the token right after
    the first occurrence of the flag: later occurrences are not looked at,
    and [v] is taken as it is, be it another flag or the flag itself. *)
Theorem getCmdOption_value_iff (p : InputParser) (flag v : string) :
  getCmdOption p flag = Value v <->
  exists pre rest, tokens p = pre ++ flag :: v :: rest /\ ~ In flag pre.
Proof.
  destruct (getCmdOption_cases p flag)
    as [[Hout ->]|[(pre & Htok & Hn & ->)|(pre & w & rest & Htok & Hn & ->)]].
  - split; [discriminate|]. intros (pre & rest & Htok & _). exfalso.
    apply Hout. rewrite Htok. apply in_or_app. right. now left.
  - split; [discriminate|]. intros (pre' & rest & Htok' & Hn').
    rewrite Htok in Htok'.
    destruct (split_unique pre pre' [] (v :: rest) flag Hn Hn' Htok')
      as [_ Hr]. discriminate.
  - split.
    + intros [= <-]. now exists pre, rest.
    + intros (pre' & rest' & Htok' & Hn'). rewrite Htok in Htok'.
      destruct (split_unique pre pre' (w :: rest) (v :: rest') flag Hn Hn' Htok')
        as [_ Hr]. now injection Hr as -> _.
Qed.

Lemma getCmdOption_value_iff_witness :
  getCmdOption {| tokens := ["-v"; "-n"; "-n"; "8"; "-n"; "9"]%string |} "-n"
  = Value "-n"%string.
Proof.
  apply getCmdOption_value_iff.
  exists ["-v"%string], ["8"; "-n"; "9"]%string. split; [reflexivity|].
  intros [H|[]]. discriminate.
Defined.

(** [getCmdOption] throws [invalid_argument]: with the "not found" message
    exactly when the flag is not a token, with the "empty argument" message
    exactly when the first occurrence of the flag is the last token. *)
Theorem getCmdOption_throws_iff (p : InputParser) (flag : string) :
  (getCmdOption p flag =
     Raised (invalid_argument ("Error: argument '" ++ flag ++ "' not found. "))
   <-> ~ In flag (tokens p)) /\
  (getCmdOption p flag =
     Raised (invalid_argument ("Error: empty argument '" ++ flag ++ "'"))
   <-> exists pre, tokens p = pre ++ [flag] /\ ~ In flag pre).
Proof.
  destruct (getCmdOption_cases p flag)
    as [[Hout ->]|[(pre & Htok & Hn & ->)|(pre & w & rest & Htok & Hn & ->)]].
  - split; [tauto|]. split; [discriminate|].
    intros (pre & Htok & _). exfalso. apply Hout.
    rewrite Htok. apply in_or_app. right. now left.
  - split; [|split; [now exists pre|reflexivity]].
    split; [discriminate|]. intros Hout. exfalso. apply Hout.
    rewrite Htok. apply in_or_app. right. now left.
  - split; (split; [discriminate|]).
    + intros Hout. exfalso. apply Hout.
      rewrite Htok. apply in_or_app. right. now left.
    + intros (pre' & Htok' & Hn'). rewrite Htok in Htok'.
      destruct (split_unique pre pre' (w :: rest) [] flag Hn Hn' Htok')
        as [_ Hr]. discriminate.
Qed.

Lemma getCmdOption_throws_iff_witness :
  getCmdOption {| tokens := ["-v"; "-n"]%string |} "-o" =
    Raised (invalid_argument "Error: argument '-o' not found. ") /\
  getCmdOption {| tokens := ["-v"; "-n"]%string |} "-n" =
    Raised (invalid_argument "Error: empty argument '-n'").
Proof.
  split.
  - apply (proj1 (getCmdOption_throws_iff {| tokens := ["-v"; "-n"]%string |} "-o")).
    intros [H|[H|[]]]; discriminate.
  - apply (proj2 (getCmdOption_throws_iff {| tokens := ["-v"; "-n"]%string |} "-n")).
    exists ["-v"%string]. split; [reflexivity|].
    intros [H|[]]. discriminate.
Defined.

End CppArgParserFacts.

(** * Properties of the constructor of PersistentCommunicator *)
Module MPIWrapperFacts.
Import MPIWrapper.

Section WithMPI.
Variables pointer MPI_Datatype MPI_Comm MPI_Request MPI_Status MPI_World : Type.
Variables MPI_Send_init MPI_Recv_init :
  init_call pointer MPI_Datatype MPI_Comm MPI_Request MPI_World.

Local Notation construct :=
  (new_PersistentCommunicator pointer MPI_Datatype MPI_Comm MPI_Request
     MPI_Status MPI_World MPI_Send_init MPI_Recv_init).

(** A communication kind other than [send] and [receive], spelled exactly
    so, is refused with [invalid_argument] naming the kind received, and no
    MPI call is made: the state of the library is untouched. *)
Theorem other_kinds_are_refused (kind : string) (buffer : pointer) (n : Z)
    (type : MPI_Datatype) (rank tag : Z) (comm : MPI_Comm) (w : MPI_World) :
  kind <> "send"%string -> kind <> "receive"%string ->
  construct kind buffer n type rank tag comm w =
  (Raised (invalid_argument
             ("Invalid commKind passed to PersistentCommunicator. Expected "
                ++ quote ++ "send" ++ quote ++ " or " ++ quote ++ "receive"
                ++ quote ++ ", got " ++ kind)), w).
Proof.
  intros Hs Hr. unfold new_PersistentCommunicator.
  apply String.eqb_neq in Hs, Hr. now rewrite Hs, Hr.
Qed.

(** When the constructor returns an object, the kind was [send] or
    [receive], the initialisation call of that kind returned status 0, the
    object holds the request of that call and the arguments as they were
    given, and the state of the library is the one this call left. *)
Theorem constructed_communicator (kind : string) (buffer : pointer) (n : Z)
    (type : MPI_Datatype) (rank tag : Z) (comm : MPI_Comm) (w : MPI_World)
    (pc : PersistentCommunicator pointer MPI_Datatype MPI_Comm MPI_Request MPI_Status) :
  fst (construct kind buffer n type rank tag comm w) = Value pc ->
  (kind = "send"%string \/ kind = "receive"%string) /\
  (if String.eqb kind "send" then MPI_Send_init else MPI_Recv_init)
    buffer n type rank tag comm w =
    (0%Z, _request _ _ _ _ _ pc, snd (construct kind buffer n type rank tag comm w)) /\
  pc = {| status := None; commKind := kind; bufferPointer := buffer;
          numElements := n; mpi_type := type; otherRank := rank; tag := tag;
          mpiCommunicator := comm; _request := _request _ _ _ _ _ pc |}.
Proof.
  unfold new_PersistentCommunicator.
  destruct (String.eqb_spec kind "send") as [->|Hs];
    [|destruct (String.eqb_spec kind "receive") as [->|Hr]].
  - destruct (MPI_Send_init buffer n type rank tag comm w) as [[st req] w'].
    destruct (Z.eqb_spec st 0) as [->|Hst]; simpl; [|discriminate].
    intros [= <-]. simpl. auto.
  - destruct (MPI_Recv_init buffer n type rank tag comm w) as [[st req] w'].
    destruct (Z.eqb_spec st 0) as [->|Hst]; simpl; [|discriminate].
    intros [= <-]. simpl. auto.
  - simpl. discriminate.
Qed.

(** When the initialisation call of the kind asked for returns a status
    other than 0, the constructor throws [runtime_error] with that status
    in decimal, and no object exists. *)
Theorem failed_initialisation_is_thrown (kind : string) (buffer : pointer) (n : Z)
    (type : MPI_Datatype) (rank tag : Z) (comm : MPI_Comm) (w w' : MPI_World)
    (code : Z) (request : MPI_Request) :
  (kind = "send"%string \/ kind = "receive"%string) ->
  (if String.eqb kind "send" then MPI_Send_init else MPI_Recv_init)
    buffer n type rank tag comm w = (code, request, w') ->
  code <> 0%Z ->
  construct kind buffer n type rank tag comm w =
  (Raised (runtime_error
             ("MPI persistent communication failed to initialize. Error Code: "
                ++ to_string code)), w').
Proof.
  intros Hkind Hcall Hcode. unfold new_PersistentCommunicator.
  apply Z.eqb_neq in Hcode.
  destruct Hkind as [-> | ->]; simpl in Hcall |- *;
    now rewrite Hcall, Hcode.
Qed.

End WithMPI.

(** A library whose initialisation calls succeed for sends, with request 7,
    and fail for receives, with code -3. *)
Lemma other_kinds_are_refused_witness :
  "Send"%string <> "send"%string /\ "Send"%string <> "receive"%string /\
  fst (new_PersistentCommunicator unit unit unit nat unit unit
         (fun _ _ _ _ _ _ w => (0%Z, 7, w)) (fun _ _ _ _ _ _ w => ((-3)%Z, 0, w))
         "Send" tt 4%Z tt 1%Z 0%Z tt tt) =
  Raised (invalid_argument
            ("Invalid commKind passed to PersistentCommunicator. Expected "
               ++ quote ++ "send" ++ quote ++ " or " ++ quote ++ "receive"
               ++ quote ++ ", got Send")).
Proof.
  split; [discriminate|]. split; [discriminate|].
  rewrite (other_kinds_are_refused unit unit unit nat unit unit
             (fun _ _ _ _ _ _ w => (0%Z, 7, w)) (fun _ _ _ _ _ _ w => ((-3)%Z, 0, w))
             "Send" tt 4%Z tt 1%Z 0%Z tt tt); [reflexivity|discriminate|discriminate].
Defined.

Lemma constructed_communicator_witness :
  exists pc,
    fst (new_PersistentCommunicator unit unit unit nat unit unit
           (fun _ _ _ _ _ _ w => (0%Z, 7, w)) (fun _ _ _ _ _ _ w => ((-3)%Z, 0, w))
           "send" tt 4%Z tt 1%Z 0%Z tt tt) = Value pc /\
    pc = {| status := None; commKind := "send"; bufferPointer := tt;
            numElements := 4%Z; mpi_type := tt; otherRank := 1%Z; tag := 0%Z;
            mpiCommunicator := tt; _request := _request _ _ _ _ _ pc |}.
Proof.
  eexists. split; [reflexivity|].
  exact (proj2 (proj2 (constructed_communicator unit unit unit nat unit unit
           (fun _ _ _ _ _ _ w => (0%Z, 7, w)) (fun _ _ _ _ _ _ w => ((-3)%Z, 0, w))
           "send" tt 4%Z tt 1%Z 0%Z tt tt _ eq_refl))).
Defined.

Lemma failed_initialisation_is_thrown_witness :
  new_PersistentCommunicator unit unit unit nat unit unit
    (fun _ _ _ _ _ _ w => (0%Z, 7, w)) (fun _ _ _ _ _ _ w => ((-3)%Z, 0, w))
    "receive" tt 4%Z tt 1%Z 0%Z tt tt =
  (Raised (runtime_error
             ("MPI persistent communication failed to initialize. Error Code: "
                ++ to_string (-3))), tt).
Proof.
  apply (failed_initialisation_is_thrown unit unit unit nat unit unit
           (fun _ _ _ _ _ _ w => (0%Z, 7, w)) (fun _ _ _ _ _ _ w => ((-3)%Z, 0, w))
           "receive" tt 4%Z tt 1%Z 0%Z tt tt tt (-3)%Z 0).
  - right. reflexivity.
  - reflexivity.
  - discriminate.
Defined.

End MPIWrapperFacts.
